(** * Rollout worker and experiment configuration of the HER/skill-discovery core

    A shallow embedding of [baselines/her/rollout.py] (class [RolloutWorker])
    and of the environment cache and parameter preparation of
    [baselines/her/experiment/config.py], followed by the properties the
    design document states about them.

    Python objects are modelled as follows.
    - NumPy float scalars are an abstract type [F] with the operations the
      code applies to them; 1-D arrays are lists, 2-D arrays lists of rows.
    - A Python exception is a value of [exn]; a computation that may raise and
      that mutates the worker is a function [S -> res A * S]: the state
      reached when the exception is raised is kept, as in Python.
    - Environments, the policy and the logger are the collaborators of the
      worker; they are parameters of the development. *)

From Stdlib Require Import ZArith String Ascii List Lia Floats.
From stdpp Require Import base option list strings gmap.

Open Scope Z_scope.

(** ** Python exceptions and the state-and-exception monad *)

Module Py.

Inductive exn : Type :=
| MujocoException
| AttributeError
| KeyError
| IndexError
| ValueError
| TypeError
| AssertionError
| ZeroDivisionError
| OverflowError
| RecursionError.

Inductive res (A : Type) : Type :=
| Ok (a : A)
| Raise (e : exn).
Arguments Ok {A} a.
Arguments Raise {A} e.

Definition is_ok {A} (r : res A) : bool :=
  match r with Ok _ => true | Raise _ => false end.

(** A computation over a mutable state [S]. *)
Definition M (S A : Type) : Type := S -> res A * S.

Definition ret {S A} (a : A) : M S A := fun s => (Ok a, s).
Definition raise {S A} (e : exn) : M S A := fun s => (Raise e, s).
Definition bind {S A B} (c : M S A) (k : A -> M S B) : M S B :=
  fun s => match c s with
           | (Ok a, s') => k a s'
           | (Raise e, s') => (Raise e, s')
           end.
Definition get {S} : M S S := fun s => (Ok s, s).
Definition modify {S} (f : S -> S) : M S unit := fun s => (Ok tt, f s).

(** [d[k]] on something that may be absent. *)
Definition lift_opt {S A} (e : exn) (o : option A) : M S A :=
  match o with Some a => ret a | None => raise e end.

Definition lift_res {S A} (r : res A) : M S A := fun s => (r, s).

(** [assert c] *)
Definition assert {S} (c : bool) : M S unit :=
  if c then ret tt else raise AssertionError.

End Py.
Import Py.

Declare Scope py_scope.
Delimit Scope py_scope with py.
Notation "'let*' x ':=' c 'in' k" := (bind c (fun x => k))
  (at level 10, x pattern, c at level 100, k at level 200) : py_scope.
Open Scope py_scope.

(** ** NumPy arrays as lists *)

Module Np.

Section Arrays.
Context {A : Type}.

(** [np.full(n, x)], [np.zeros(n)], [np.ones(n)], [np.empty(n)] *)
Definition full (n : nat) (x : A) : list A := replicate n x.
Definition full2 (n m : nat) (x : A) : list (list A) := replicate n (replicate m x).

(** [dst[i] = src] for a row [dst[i]] of width [width]: NumPy broadcasts a
    source of length 1, copies a source of the same length, and raises
    ValueError otherwise. [cast] is the conversion to the dtype of [dst]. *)
Definition store_row (cast : A -> A) (width : nat) (src : list A) : option (list A) :=
  if decide (length src = width) then Some (map cast src)
  else match src with
       | [x] => Some (replicate width (cast x))
       | _ => None
       end.

(** [np.array(rows).swapaxes(0, 1)] for rows of length [n]. *)
Fixpoint swapaxes01 (n : nat) (rows : list (list A)) : list (list A) :=
  match rows with
  | [] => replicate n []
  | r :: rows' => zip_with cons r (swapaxes01 n rows')
  end.

(** A deque with [maxlen]: appending to a full deque drops the oldest
    entry; a deque of capacity 0 stays empty. [None] is an unbounded deque. *)
Definition deque_append (maxlen : option nat) (d : list A) (x : A) : list A :=
  match maxlen with
  | None => d ++ [x]
  | Some 0%nat => d
  | Some n => if decide (length d < n)%nat then d ++ [x] else tail d ++ [x]
  end.
End Arrays.

(** [d[k]] for a dict kept as the list of its items. *)
Fixpoint assoc {A} (k : string) (d : list (string * A)) : option A :=
  match d with
  | [] => None
  | (k', v) :: d' => if String.eqb k k' then Some v else assoc k d'
  end.

(** [s.startswith(p)], [s.endswith(p)] and [s.replace(p, "")] for a
    non-empty [p]. *)
Definition startswith (s p : string) : bool := String.prefix p s.

Definition endswith (s p : string) : bool :=
  String.prefix (String.rev p) (String.rev s).

Fixpoint remove_all_aux (p : string) (skip : nat) (s : string) : string :=
  match s with
  | EmptyString => EmptyString
  | String c s' =>
      match skip with
      | S k => remove_all_aux p k s'
      | O => if String.prefix p s
             then remove_all_aux p (String.length p - 1) s'
             else String c (remove_all_aux p 0 s')
      end
  end.
Definition remove_all (p s : string) : string := remove_all_aux p 0 s.

End Np.

(** ** The rollout worker ([baselines/her/rollout.py]) *)

Module Rollout.

(** How one run of the body of [generate_rollouts] ends: with a value, or at
    one of the two [return self.generate_rollouts()]. *)
Inductive attempt (A : Type) : Type :=
| Done (a : A)
| Restart.
Arguments Done {A} a.
Arguments Restart {A}.

Section Data.
Variables F Qv : Type.

(** What [env.reset()] and [env.step()] hand back as observation: a dict
    with the three goal-conditioned entries, or a plain array. *)
Inductive observation : Type :=
| ObsDict (obs achieved_goal desired_goal : list F)
| ObsArray (a : list F).

(** The [info] dict of a step; a scalar entry is a vector of length 1, as
    [configure_dims] has it. *)
Definition info : Type := gmap string (list F).

(** The arguments [generated_goal] and [z_s_onehot]: the default [False]
    or an ndarray. *)
Inductive goal_arg : Type := GoalFalse | GoalArray (rows : list (list F)).
Inductive skill_arg : Type := SkillFalse | SkillArray (rows : list (list F)).

(** What the policy returns: an action array of one or two dimensions,
    alone or paired with Q. *)
Inductive actions : Type := Act1 (u : list F) | Act2 (u : list (list F)).
Inductive policy_output : Type := OutU (u : actions) | OutUQ (u : actions) (q : Qv).

Record get_actions_args : Type := {
  a_o : list (list F);
  a_z : list (list F);
  a_ag : list (list F);
  a_g : list (list F);
  a_compute_Q : bool;
  a_noise_eps : F;
  a_random_eps : F;
  a_use_target_net : bool;
  a_exploit : bool
}.
End Data.

Arguments ObsDict {F} obs achieved_goal desired_goal.
Arguments ObsArray {F} a.
Arguments GoalFalse {F}.
Arguments GoalArray {F} rows.
Arguments SkillFalse {F}.
Arguments SkillArray {F} rows.
Arguments Act1 {F} u.
Arguments Act2 {F} u.
Arguments OutU {F Qv} u.
Arguments OutUQ {F Qv} u q.
Arguments a_o {F} _.
Arguments a_z {F} _.
Arguments a_ag {F} _.
Arguments a_g {F} _.
Arguments a_compute_Q {F} _.
Arguments a_noise_eps {F} _.
Arguments a_random_eps {F} _.
Arguments a_use_target_net {F} _.
Arguments a_exploit {F} _.

(** [self.render]: [False], ['rgb_array'], ['human'], or another truthy value. *)
Inductive render_mode : Type := RenderOff | RenderRgbArray | RenderHuman | RenderOther.

(** The operations the worker applies to NumPy floats: [0.], [1.], [+],
    [np.isnan], [> 0], truthiness, the conversion to float32 of a store into
    a float32 array, the conversion of a store into an integer array, the
    content of a cell of [np.empty], and [np.mean] on a float array and on an
    integer array. *)
Class FloatOps (F : Type) : Type := {
  f0 : F;
  f1 : F;
  fadd : F -> F -> F;
  fisnan : F -> bool;
  fpos : F -> bool;
  ftruthy : F -> bool;
  f32 : F -> F;
  to_int : F -> Z;
  uninit : F;
  mean : list F -> F;
  mean_int : list Z -> F
}.

(** The environment interface: [reset()], [step(action)], the assignment to
    [env.goal] and [render()]. Each call may raise and moves the
    environment to a new state. *)
Class Environment (F Env Img : Type) : Type := {
  env_reset : Env -> res (observation F) * Env;
  env_step : list F -> Env -> res (observation F * F * bool * info F) * Env;
  env_set_goal : list F -> Env -> Env;
  env_render : render_mode -> Env -> res Img * Env
}.

(** The policy interface, and [np.mean] over the Q batches it returned. *)
Class Policy (F Pol Qv : Type) : Type := {
  get_actions : get_actions_args F -> Pol -> res (policy_output F Qv) * Pol;
  mean_Q : list Qv -> F
}.

Section Worker.
(** [F]: NumPy floats; [Env]: the state of one environment; [Pol]: the
    state of the policy; [Qv]: a batch of Q estimates; [Img]: a frame. *)
Context {F Env Pol Qv Img : Type}.
Context {FO : FloatOps F} {EI : Environment F Env Img} {PI : Policy F Pol Qv}.

(** The constructor arguments kept by [store_args], and [info_keys]. *)
Record config : Type := {
  dims : list (string * nat);
  T : Z;
  rollout_batch_size : nat;
  exploit : bool;
  use_target_net : bool;
  compute_Q : bool;
  noise_eps : F;
  random_eps : F;
  history_len : option nat;
  render : render_mode;
  info_keys : list string
}.

Record statistics : Type := {
  success_history : list F;
  Q_history : list F;
  episode_length_history : list F;
  once_success_history : list F;
  return_history : list F;
  n_episodes : Z
}.

Record worker : Type := {
  cfg : config;
  envs : list Env;
  policy : Pol;
  stats : statistics;
  g : list (list F);
  initial_o : list (list F);
  initial_ag : list (list F);
  warnings : list string
}.

(** The buffers of one attempt (the locals of [generate_rollouts]). *)
Record locals : Type := {
  o : list (list F);
  ag : list (list F);
  z : list (list F);
  obs : list (list (list F));
  zs : list (list (list F));
  achieved_goals : list (list (list F));
  acts : list (list (list F));
  goals : list (list (list F));
  successes : list (list F);
  rewards : list (list F);
  dones : list (list F);
  valids : list (list F);
  imgs : list (list (option Img));
  info_values : list (list (list (list F)));
  Qs : list Qv;
  cur_valid : list F;
  lengths : list Z;
  once_successes : list Z;
  returns : list F
}.

(** The arrays allocated afresh at each timestep. *)
Record stepbuf : Type := {
  o_new : list (list F);
  ag_new : list (list F);
  success : list F;
  cur_reward : list F;
  cur_done : list F
}.

(** The time-major episode dict. *)
Record episode : Type := {
  ep_o : list (list (list F));
  ep_z : list (list (list F));
  ep_u : list (list (list F));
  ep_g : list (list (list F));
  ep_ag : list (list (list F));
  ep_myr : list (list F);
  ep_myd : list (list F);
  ep_myv : list (list F);
  ep_info : list (string * list (list (list F)))
}.

Definition of_bool (b : bool) : F := if b then f1 else f0.

(** *** Field updates *)

Definition set_envs (v : list Env) (w : worker) : worker :=
  {| cfg := cfg w; envs := v; policy := policy w; stats := stats w; g := g w;
     initial_o := initial_o w; initial_ag := initial_ag w; warnings := warnings w |}.
Definition set_policy (v : Pol) (w : worker) : worker :=
  {| cfg := cfg w; envs := envs w; policy := v; stats := stats w; g := g w;
     initial_o := initial_o w; initial_ag := initial_ag w; warnings := warnings w |}.
Definition set_stats (v : statistics) (w : worker) : worker :=
  {| cfg := cfg w; envs := envs w; policy := policy w; stats := v; g := g w;
     initial_o := initial_o w; initial_ag := initial_ag w; warnings := warnings w |}.
Definition set_g (v : list (list F)) (w : worker) : worker :=
  {| cfg := cfg w; envs := envs w; policy := policy w; stats := stats w; g := v;
     initial_o := initial_o w; initial_ag := initial_ag w; warnings := warnings w |}.
Definition set_initial_o (v : list (list F)) (w : worker) : worker :=
  {| cfg := cfg w; envs := envs w; policy := policy w; stats := stats w; g := g w;
     initial_o := v; initial_ag := initial_ag w; warnings := warnings w |}.
Definition set_initial_ag (v : list (list F)) (w : worker) : worker :=
  {| cfg := cfg w; envs := envs w; policy := policy w; stats := stats w; g := g w;
     initial_o := initial_o w; initial_ag := v; warnings := warnings w |}.
Definition log_warning (msg : string) (w : worker) : worker :=
  {| cfg := cfg w; envs := envs w; policy := policy w; stats := stats w; g := g w;
     initial_o := initial_o w; initial_ag := initial_ag w;
     warnings := warnings w ++ [msg] |}.

(** *** Access to arrays and collaborators *)

(** [l[i]] *)
Definition at_ {A} (l : list A) (i : nat) : M worker A := lift_opt IndexError (l !! i).

(** [self.dims[k]] *)
Definition dim (k : string) : M worker nat :=
  let* w := get in lift_opt KeyError (Np.assoc k (dims (cfg w))).

(** [arr[i] = src], the row keeping its width and dtype *)
Definition assign_row (cast : F -> F) (arr : list (list F)) (i : nat) (src : list F)
  : M worker (list (list F)) :=
  let* old := at_ arr i in
  let* row := lift_opt ValueError (Np.store_row cast (length old) src) in
  ret (<[i := row]> arr).

(** [x = v] for a scalar cell [x] *)
Definition scalar (v : list F) : M worker F :=
  match v with [x] => ret x | _ => raise ValueError end.

(** A method call on [self.envs[i]] *)
Definition call_env {A} (i : nat) (f : Env -> res A * Env) : M worker A :=
  fun w =>
    match envs w !! i with
    | None => (Raise IndexError, w)
    | Some e => let '(r, e') := f e in (r, set_envs (<[i := e']> (envs w)) w)
    end.

(** [self.policy.get_actions(...)] *)
Definition call_policy (a : get_actions_args F) : M worker (policy_output F Qv) :=
  fun w => let '(r, p') := get_actions a (policy w) in (r, set_policy p' w).

(** [for x in xs: body(x)] *)
Fixpoint for_ {A} (xs : list A) (body : A -> M worker unit) : M worker unit :=
  match xs with
  | [] => ret tt
  | x :: xs' => let* _ := body x in for_ xs' body
  end.

(** [[body(x) for x in xs]] *)
Fixpoint map_M {A B} (body : A -> M worker B) (xs : list A) : M worker (list B) :=
  match xs with
  | [] => ret []
  | x :: xs' => let* y := body x in let* ys := map_M body xs' in ret (y :: ys)
  end.

(** *** [reset_rollout], [reset_all_rollouts] *)

(** [self.g], [self.initial_o] and [self.initial_ag] are float32 arrays:
    a store converts with [f32]. In the chained assignment
    [self.g[i] = self.envs[i].env.goal = generated_goal[i].copy()] the
    targets are assigned from left to right. *)
Definition reset_rollout (i : nat) (generated_goal : goal_arg F) : M worker unit :=
  let* ob := call_env i env_reset in
  match ob with
  | ObsDict ob_o ob_ag ob_g =>
      let* w := get in
      let* g1 := assign_row f32 (g w) i ob_g in
      let* _ := modify (set_g g1) in
      let* _ := match generated_goal with
                | GoalArray rows =>
                    let* row := at_ rows i in
                    let* w := get in
                    let* g2 := assign_row f32 (g w) i row in
                    let* _ := modify (set_g g2) in
                    call_env i (fun e => (Ok tt, env_set_goal row e))
                | GoalFalse => ret tt
                end in
      let* w := get in
      let* io := assign_row f32 (initial_o w) i ob_o in
      let* _ := modify (set_initial_o io) in
      let* w := get in
      let* ia := assign_row f32 (initial_ag w) i ob_ag in
      modify (set_initial_ag ia)
  | ObsArray a =>
      let* w := get in
      let* old := at_ (g w) i in
      let* _ := modify (set_g (<[i := replicate (length old) f0]> (g w))) in
      let* w := get in
      let* io := assign_row f32 (initial_o w) i a in
      let* _ := modify (set_initial_o io) in
      let* w := get in
      let* old := at_ (initial_ag w) i in
      modify (set_initial_ag (<[i := replicate (length old) f0]> (initial_ag w)))
  end.

Definition reset_all_rollouts (generated_goal : goal_arg F) : M worker unit :=
  let* w := get in
  for_ (seq 0 (rollout_batch_size (cfg w))) (fun i => reset_rollout i generated_goal).

(** *** One timestep of [generate_rollouts] *)

(** The keyword arguments of the call of [get_actions] (lines 101-108). *)
Definition policy_args (w : worker) (random_action : bool) (lc : locals) : get_actions_args F :=
  {| a_o := o lc; a_z := z lc; a_ag := ag lc; a_g := g w;
     a_compute_Q := compute_Q (cfg w);
     a_noise_eps := if negb (exploit (cfg w)) then noise_eps (cfg w) else f0;
     a_random_eps := if negb random_action
                     then (if negb (exploit (cfg w)) then random_eps (cfg w) else f0)
                     else f1;
     a_use_target_net := use_target_net (cfg w);
     a_exploit := exploit (cfg w) |}.

(** [for idx, key in enumerate(self.info_keys): info_values[idx][t, i] = info[key]] *)
Fixpoint store_info (t i : nat) (inf : info F) (idx : nat) (keys : list string)
    (iv : list (list (list (list F)))) : M worker (list (list (list (list F)))) :=
  match keys with
  | [] => ret iv
  | key :: keys' =>
      let* v := lift_opt KeyError (inf !! key) in
      let* chan := at_ iv idx in
      let* plane := at_ chan t in
      let* plane' := assign_row f32 plane i v in
      store_info t i inf (S idx) keys' (<[idx := <[t := plane']> chan]> iv)
  end.

(** The body of the [try] for environment [i] at timestep [t]
    (lines 128-154). The 1-D arrays all have [rollout_batch_size] cells, so
    the stores at [i] are in range. *)
Definition step_env (t i : nat) (u : list (list F)) (st : locals * stepbuf)
  : M worker (locals * stepbuf) :=
  let '(lc, sb) := st in
  let* w := get in
  let c := cfg w in
  let* ui := at_ u i in
  let* (curr_o_new, reward, done, inf) := call_env i (env_step ui) in
  let* success1 := match inf !! "is_success" with
                   | Some v => let* x := scalar v in ret (<[i := x]> (success sb))
                   | None => ret (success sb)
                   end in
  let cur_reward1 := <[i := reward]> (cur_reward sb) in
  let cur_done1 := <[i := of_bool done]> (cur_done sb) in
  let* len_i := at_ (lengths lc) i in
  let* lengths1 :=
    if (done || (Z.of_nat t =? T c - 1)) && (len_i =? -1)
    then match inf !! "cur_step" with
         | Some v => let* x := scalar v in ret (<[i := to_int x]> (lengths lc))
         | None => ret (<[i := Z.of_nat t + 1]> (lengths lc))
         end
    else ret (lengths lc) in
  let* s_i := at_ success1 i in
  let once1 := if fpos s_i then <[i := 1]> (once_successes lc) else once_successes lc in
  let* v_i := at_ (cur_valid lc) i in
  let* ret_i := at_ (returns lc) i in
  let returns1 := if ftruthy v_i then <[i := fadd ret_i reward]> (returns lc)
                  else returns lc in
  let* (o_new1, ag_new1, info_values1) :=
    match curr_o_new with
    | ObsDict ob_o ob_ag _ =>
        let* o1 := assign_row id (o_new sb) i ob_o in
        let* a1 := assign_row id (ag_new sb) i ob_ag in
        let* iv := store_info t i inf 0 (info_keys c) (info_values lc) in
        ret (o1, a1, iv)
    | ObsArray a =>
        let* o1 := assign_row id (o_new sb) i a in
        let* old := at_ (ag_new sb) i in
        ret (o1, <[i := replicate (length old) f0]> (ag_new sb), info_values lc)
    end in
  let* imgs1 :=
    match render c with
    | RenderRgbArray | RenderHuman =>
        let* img := call_env i (env_render (render c)) in
        let* row := at_ (imgs lc) i in
        ret (<[i := <[t := Some img]> row]> (imgs lc))
    | RenderOff | RenderOther => ret (imgs lc)
    end in
  ret ({| o := o lc; ag := ag lc; z := z lc; obs := obs lc; zs := zs lc;
          achieved_goals := achieved_goals lc; acts := acts lc; goals := goals lc;
          successes := successes lc; rewards := rewards lc; dones := dones lc;
          valids := valids lc; imgs := imgs1; info_values := info_values1;
          Qs := Qs lc; cur_valid := cur_valid lc; lengths := lengths1;
          once_successes := once1; returns := returns1 |},
       {| o_new := o_new1; ag_new := ag_new1; success := success1;
          cur_reward := cur_reward1; cur_done := cur_done1 |}).

(** [for i in range(self.rollout_batch_size): try: ... except MujocoException] *)
Fixpoint step_envs (t : nat) (u : list (list F)) (ixs : list nat) (st : locals * stepbuf)
  : M worker (attempt (locals * stepbuf)) :=
  match ixs with
  | [] => ret (Done st)
  | i :: ixs' =>
      fun w =>
        match step_env t i u st w with
        | (Ok st', w') => step_envs t u ixs' st' w'
        | (Raise MujocoException, w') => (Ok Restart, w')
        | (Raise e, w') => (Raise e, w')
        end
  end.

(** [for i in range(len(cur_valid)): if cur_done[i]: cur_valid[i] = 0] *)
Fixpoint invalidate (cur_done : list F) (ixs : list nat) (cur_valid : list F)
  : M worker (list F) :=
  match ixs with
  | [] => ret cur_valid
  | i :: ixs' =>
      let* d := at_ cur_done i in
      invalidate cur_done ixs' (if ftruthy d then <[i := f0]> cur_valid else cur_valid)
  end.

(** The body of [for t in range(self.T)] (lines 101-178). *)
Definition rollout_step (random_action : bool) (t : nat) (lc : locals)
  : M worker (attempt locals) :=
  let* w := get in
  let c := cfg w in
  let* out := call_policy (policy_args w random_action lc) in
  let* (u0, Qs1) :=
    match compute_Q c, out with
    | true, OutUQ u q => ret (u, Qs lc ++ [q])
    | true, OutU _ => raise ValueError
    | false, OutU u => ret (u, Qs lc)
    | false, OutUQ _ _ => raise AttributeError
    end in
  let u := match u0 with Act1 v => [v] | Act2 m => m end in
  let B := rollout_batch_size c in
  let* d_o := dim "o" in
  let* d_g := dim "g" in
  let sb := {| o_new := Np.full2 B d_o uninit; ag_new := Np.full2 B d_g uninit;
               success := Np.full B f0; cur_reward := Np.full B f0;
               cur_done := Np.full B f0 |} in
  let* r := step_envs t u (seq 0 B) (lc, sb) in
  match r with
  | Restart => ret Restart
  | Done (lc1, sb1) =>
      if existsb (existsb fisnan) (o_new sb1)
      then
        let* _ := modify (log_warning "NaN caught during rollout generation. Trying again...") in
        let* _ := reset_all_rollouts GoalFalse in
        ret Restart
      else
        let* w := get in
        let* cur_valid1 := invalidate (cur_done sb1) (seq 0 (length (cur_valid lc1)))
                                      (cur_valid lc1) in
        ret (Done
          {| o := map (map f32) (o_new sb1); ag := map (map f32) (ag_new sb1); z := z lc1;
             obs := obs lc1 ++ [o lc1];
             zs := zs lc1 ++ [z lc1];
             achieved_goals := achieved_goals lc1 ++ [ag lc1];
             acts := acts lc1 ++ [u];
             goals := goals lc1 ++ [g w];
             successes := successes lc1 ++ [success sb1];
             rewards := rewards lc1 ++ [cur_reward sb1];
             dones := dones lc1 ++ [cur_done sb1];
             valids := valids lc1 ++ [cur_valid lc1];
             imgs := imgs lc1; info_values := info_values lc1; Qs := Qs1;
             cur_valid := cur_valid1; lengths := lengths lc1;
             once_successes := once_successes lc1; returns := returns lc1 |})
  end.

(** [for t in range(self.T)], left at the first restart. *)
Fixpoint rollout_loop (random_action : bool) (ts : list nat) (lc : locals)
  : M worker (attempt locals) :=
  match ts with
  | [] => ret (Done lc)
  | t :: ts' =>
      let* r := rollout_step random_action t lc in
      match r with
      | Restart => ret Restart
      | Done lc' => rollout_loop random_action ts' lc'
      end
  end.

(** *** [generate_rollouts] *)

(** Modelled from the spec: [convert_episode_to_batch_major] of
    [baselines/her/util.py], which is not among the sources at hand. The
    design document describes it as a pure reshape that transposes every
    field from shape [T(+1), batch, ...] to [batch, T(+1), ...], keeping
    the field names and the trailing dimensions. *)
Definition batch_major {A} (rows : list (list A)) : list (list A) :=
  Np.swapaxes01 (length (hd [] rows)) rows.

Definition convert_episode_to_batch_major (e : episode) : episode :=
  {| ep_o := batch_major (ep_o e);
     ep_z := batch_major (ep_z e);
     ep_u := batch_major (ep_u e);
     ep_g := batch_major (ep_g e);
     ep_ag := batch_major (ep_ag e);
     ep_myr := batch_major (ep_myr e);
     ep_myd := batch_major (ep_myd e);
     ep_myv := batch_major (ep_myv e);
     ep_info := map (fun kv => (fst kv, batch_major (snd kv))) (ep_info e) |}.

(** The statistics block (lines 203-211). *)
Definition record_stats (c : config) (successful : list F) (lc : locals) (s : statistics)
  : statistics :=
  {| success_history :=
       Np.deque_append (history_len c) (success_history s) (mean successful);
     Q_history :=
       if compute_Q c then Np.deque_append (history_len c) (Q_history s) (mean_Q (Qs lc))
       else Q_history s;
     episode_length_history :=
       Np.deque_append (history_len c) (episode_length_history s) (mean_int (lengths lc));
     once_success_history :=
       Np.deque_append (history_len c) (once_success_history s)
                       (mean_int (once_successes lc));
     return_history :=
       Np.deque_append (history_len c) (return_history s) (mean (returns lc));
     n_episodes := n_episodes s + Z.of_nat (rollout_batch_size c) |}.

(** What one attempt yields when it completes: the frames (when rendering
    to an array), the time-major episode and the final locals. *)
Definition frames : Type := list (list (option Img)).

(** One run of the body of [generate_rollouts] up to a [return]. The
    buffers [o] and [ag] are float32 arrays of the shape of
    [self.initial_o] and [self.initial_ag], so [o[:] = self.initial_o]
    copies, and so does [self.initial_o[:] = o]. *)
Definition rollout_attempt (generated_goal : goal_arg F) (z_s_onehot : skill_arg F)
    (random_action : bool) : M worker (attempt (option frames * episode * locals)) :=
  let* _ := reset_all_rollouts generated_goal in
  let* w := get in
  let c := cfg w in
  let B := rollout_batch_size c in
  let* _ := dim "o" in
  let* _ := dim "g" in
  let* z0 := match z_s_onehot with
             | SkillArray rows => ret rows
             | SkillFalse => raise AttributeError
             end in
  let imgs0 := match render c with
               | RenderRgbArray | RenderHuman =>
                   replicate B (replicate (Z.to_nat (T c)) None)
               | RenderOff | RenderOther => []
               end in
  let* info_values0 :=
    map_M (fun key => let* d := dim ("info_" +:+ key) in
                      ret (replicate (Z.to_nat (T c)) (Np.full2 B d uninit)))
          (info_keys c) in
  let lc0 := {| o := initial_o w; ag := initial_ag w; z := z0;
                obs := []; zs := []; achieved_goals := []; acts := []; goals := [];
                successes := []; rewards := []; dones := []; valids := [];
                imgs := imgs0; info_values := info_values0; Qs := [];
                cur_valid := Np.full B f1; lengths := Np.full B (-1);
                once_successes := Np.full B 0; returns := Np.full B f0 |} in
  let* r := rollout_loop random_action (seq 0 (Z.to_nat (T c))) lc0 in
  match r with
  | Restart => ret Restart
  | Done lc =>
      let* _ := modify (set_initial_o (o lc)) in
      let* successful := lift_opt IndexError (last (successes lc)) in
      let ep := {| ep_o := obs lc ++ [o lc];
                   ep_z := zs lc;
                   ep_u := acts lc;
                   ep_g := goals lc;
                   ep_ag := achieved_goals lc ++ [ag lc];
                   ep_myr := rewards lc;
                   ep_myd := dones lc;
                   ep_myv := valids lc;
                   ep_info := zip_with (fun key value => ("info_" +:+ key, value))
                                       (info_keys c) (info_values lc) |} in
      let* _ := modify (fun w => set_stats (record_stats c successful lc (stats w)) w) in
      match render c with
      | RenderRgbArray | RenderHuman => ret (Done (Some (imgs lc), ep, lc))
      | RenderOff | RenderOther => ret (Done (None, ep, lc))
      end
  end.

(** [generate_rollouts(generated_goal=False, z_s_onehot=False,
    random_action=False)]. Both restarts are the call
    [self.generate_rollouts()], with no argument; [fuel] bounds the depth
    of the recursion. *)
Fixpoint generate_rollouts (fuel : nat) (generated_goal : goal_arg F)
    (z_s_onehot : skill_arg F) (random_action : bool)
  : M worker (option frames * episode) :=
  match fuel with
  | O => raise RecursionError
  | S fuel' =>
      let* r := rollout_attempt generated_goal z_s_onehot random_action in
      match r with
      | Done (fr, ep, _) => ret (fr, convert_episode_to_batch_major ep)
      | Restart => generate_rollouts fuel' GoalFalse SkillFalse false
      end
  end.

(** *** Construction and statistics *)

Definition clear_history (w : worker) : worker :=
  set_stats {| success_history := []; Q_history := []; episode_length_history := [];
               once_success_history := []; return_history := [];
               n_episodes := n_episodes (stats w) |} w.

(** [[make_env() for _ in range(n)]] for a factory with state [Mk]. *)
Fixpoint make_envs {Mk} (make_env : Mk -> res Env * Mk) (n : nat) (mk : Mk)
  : res (list Env) * Mk :=
  match n with
  | O => (Ok [], mk)
  | S n' =>
      match make_env mk with
      | (Ok e, mk') =>
          match make_envs make_env n' mk' with
          | (Ok es, mk'') => (Ok (e :: es), mk'')
          | (Raise ex, mk'') => (Raise ex, mk'')
          end
      | (Raise ex, mk') => (Raise ex, mk')
      end
  end.

(** [self.info_keys] *)
Definition info_keys_of (d : list (string * nat)) : list string :=
  map (fun kv => Np.remove_all "info_" (fst kv))
      (filter (fun kv => Np.startswith (fst kv) "info_" = true) d).

(** [RolloutWorker.__init__]; [c] holds the arguments kept by
    [store_args] ([info_keys c] is not read). *)
Definition init {Mk} (make_env : Mk -> res Env * Mk) (pol : Pol) (logger : list string)
    (c : config) (mk : Mk) : res worker * Mk :=
  match make_envs make_env (rollout_batch_size c) mk with
  | (Raise ex, mk') => (Raise ex, mk')
  | (Ok es, mk') =>
      if negb (0 <? T c) then (Raise AssertionError, mk')
      else
        let c' := {| dims := dims c; T := T c; rollout_batch_size := rollout_batch_size c;
                     exploit := exploit c; use_target_net := use_target_net c;
                     compute_Q := compute_Q c; noise_eps := noise_eps c;
                     random_eps := random_eps c; history_len := history_len c;
                     render := render c; info_keys := info_keys_of (dims c) |} in
        match Np.assoc "g" (dims c), Np.assoc "o" (dims c) with
        | Some d_g, Some d_o =>
            let B := rollout_batch_size c in
            let w0 := {| cfg := c'; envs := es; policy := pol;
                         stats := {| success_history := []; Q_history := [];
                                     episode_length_history := [];
                                     once_success_history := []; return_history := [];
                                     n_episodes := 0 |};
                         g := Np.full2 B d_g uninit;
                         initial_o := Np.full2 B d_o uninit;
                         initial_ag := Np.full2 B d_g uninit;
                         warnings := logger |} in
            match reset_all_rollouts GoalFalse w0 with
            | (Ok _, w1) => (Ok (clear_history w1), mk')
            | (Raise ex, _) => (Raise ex, mk')
            end
        | _, _ => (Raise KeyError, mk')
        end
  end.

Definition current_success_rate (w : worker) : F := mean (success_history (stats w)).
Definition current_mean_Q (w : worker) : F := mean (Q_history (stats w)).

(** A value of the list returned by [logs]: an integer or a float. *)
Inductive logval : Type := LInt (n : Z) | LFloat (x : F).

Definition raw_logs (w : worker) : list (string * logval) :=
  let s := stats w in
  [("num_trajs",
    LInt (Z.of_nat (length (success_history s)) * Z.of_nat (rollout_batch_size (cfg w))));
   ("success_rate", LFloat (mean (success_history s)));
   ("once_success_rate", LFloat (mean (once_success_history s)));
   ("return", LFloat (mean (return_history s)));
   ("episode_length", LFloat (mean (episode_length_history s)))]
  ++ (if compute_Q (cfg w) then [("mean_Q", LFloat (mean (Q_history s)))] else [])
  ++ [("episode", LInt (n_episodes s))].

(** [logs(prefix)]. The test [prefix is not ''] compares with the empty
    string, CPython keeping a single empty string object. *)
Definition logs (prefix : string) (w : worker) : list (string * logval) :=
  if negb (String.eqb prefix "") && negb (Np.endswith prefix "/")
  then map (fun kv => (prefix +:+ "/" +:+ fst kv, snd kv)) (raw_logs w)
  else raw_logs w.
End Worker.


(** *** Vocabulary of the properties *)

Section Vocabulary.
Context {F Env Pol Qv Img : Type}.
Context {FO : FloatOps F} {EI : Environment F Env Img} {PI : Policy F Pol Qv}.

(** An array of shape [n, m, ...]. *)
Definition shape2 {A} (n m : nat) (a : list (list A)) : Prop :=
  length a = n /\ Forall (fun r => length r = m) a.

(** The action batch read from an answer of the policy (lines 110-118). *)
Definition rows_of (out : policy_output F Qv) : list (list F) :=
  match out with
  | OutU (Act1 v) | OutUQ (Act1 v) _ => [v]
  | OutU (Act2 m) | OutUQ (Act2 m) _ => m
  end.

(** The policy answers one action per row of the observation batch. *)
Definition policy_answers_batch : Prop :=
  forall a p out p',
    get_actions a p = (Ok out, p') -> length (rows_of out) = length (a_o a).

(** The environments are goal-conditioned: [reset()] hands back a dict. *)
Definition goal_conditioned : Prop :=
  forall e ob e',
    env_reset e = (Ok ob, e') -> exists x y z, ob = ObsDict x y z.

(** What [__init__] establishes: a positive horizon and goal and
    observation buffers with one row per environment. *)
Definition well_formed (w : @worker F Env Pol) : Prop :=
  0 < T (cfg w) /\
  length (g w) = rollout_batch_size (cfg w) /\
  length (initial_o w) = rollout_batch_size (cfg w) /\
  length (initial_ag w) = rollout_batch_size (cfg w).

(** The part of the worker that calls of the environments leave alone,
    and the part of the locals that the pass over the environments at
    one timestep leaves alone. *)
Definition frame_of (w : @worker F Env Pol) :=
  (cfg w, policy w, stats w, g w, initial_o w, initial_ag w, warnings w).

Definition history (lc : @locals F Qv Img) :=
  (o lc, ag lc, z lc, obs lc, zs lc, achieved_goals lc, acts lc, goals lc,
   successes lc, rewards lc, dones lc, valids lc, Qs lc, cur_valid lc).

(** The sum of a list of floats, from left to right, starting from [0.]. *)
Definition fsum (l : list F) : F := fold_left fadd l f0.

(** The rewards of environment [i] at the timesteps whose validity mask
    is true, in the order of the timesteps. *)
Definition valid_rewards (i : nat) (myr myv : list (list F)) : list F :=
  omap (fun rv => match fst rv !! i, snd rv !! i with
                  | Some r, Some v => if ftruthy v then Some r else None
                  | _, _ => None
                  end)
       (zip myr myv).

(** The statistics [s'] come from [s] by one rollout whose scalars are
    [x_success], [x_once], [x_return], [x_length] and [x_Q]. *)
Definition one_rollout_recorded (c : config (F:=F)) (s s' : statistics (F:=F))
    (x_success x_once x_return x_length x_Q : F) : Prop :=
  success_history s' = Np.deque_append (history_len c) (success_history s) x_success /\
  once_success_history s' =
    Np.deque_append (history_len c) (once_success_history s) x_once /\
  return_history s' = Np.deque_append (history_len c) (return_history s) x_return /\
  episode_length_history s' =
    Np.deque_append (history_len c) (episode_length_history s) x_length /\
  Q_history s' = (if compute_Q c
                  then Np.deque_append (history_len c) (Q_history s) x_Q
                  else Q_history s) /\
  n_episodes s' = n_episodes s + Z.of_nat (rollout_batch_size c).

(** *** Invariants of the rollout loop *)

(** The part of the worker a reset leaves alone, and the shape of the
    buffers it writes. *)
Definition kept_by_reset (w w' : @worker F Env Pol) : Prop :=
  cfg w' = cfg w /\ policy w' = policy w /\ stats w' = stats w /\
  warnings w' = warnings w /\ length (envs w') = length (envs w) /\
  length (g w') = length (g w) /\
  length (initial_o w') = length (initial_o w) /\
  length (initial_ag w') = length (initial_ag w).

(** The shape of the buffers after [n] timesteps: every buffer holds [n]
    arrays of [B] rows, and the info buffers keep their shape [m, B]. *)
Definition shape_inv (B m n : nat) (lc : @locals F Qv Img) (w : @worker F Env Pol)
  : Prop :=
  (rollout_batch_size (cfg w) = B /\ length (g w) = B /\
   length (o lc) = B /\ length (ag lc) = B /\ length (z lc) = B /\
   length (cur_valid lc) = B) /\
  (shape2 n B (obs lc) /\ shape2 n B (zs lc) /\ shape2 n B (achieved_goals lc) /\
   shape2 n B (acts lc) /\ shape2 n B (goals lc)) /\
  (shape2 n B (successes lc) /\ shape2 n B (rewards lc) /\ shape2 n B (dones lc) /\
   shape2 n B (valids lc)) /\
  Forall (shape2 m B) (info_values lc).

(** The fields of an episode under a reading [sh k] of "an array whose
    time axis has length [k]": [o] and [ag] hold one entry more than the
    other fields. *)
Definition episode_shape (sh : forall A, nat -> list (list A) -> Prop) (n : nat)
    (e : @episode F) : Prop :=
  (sh _ (S n) (ep_o e) /\ sh _ (S n) (ep_ag e)) /\
  (sh _ n (ep_z e) /\ sh _ n (ep_u e) /\ sh _ n (ep_g e) /\
   sh _ n (ep_myr e) /\ sh _ n (ep_myd e) /\ sh _ n (ep_myv e)) /\
  Forall (fun kv => sh _ n (snd kv)) (ep_info e).

(** Shapes [T(+1), batch, ...], as the loop builds the lists, and
    [batch, T(+1), ...], as the episode is returned. *)
Definition shaped_time_major (B n : nat) (e : @episode F) : Prop :=
  episode_shape (fun A k => @shape2 A k B) n e.

Definition shaped_batch_major (B n : nat) (e : @episode F) : Prop :=
  episode_shape (fun A k => @shape2 A B k) n e.

(** The mask holds [0.] and [1.] only; a cell that is [0.] in a recorded
    mask is [0.] in the live mask and in every mask recorded later. *)
Definition valid_inv (lc : @locals F Qv Img) : Prop :=
  (forall i x, cur_valid lc !! i = Some x -> x = f0 \/ x = f1) /\
  (forall t row i x, valids lc !! t = Some row -> row !! i = Some x ->
                     x = f0 \/ x = f1) /\
  (forall t row i, valids lc !! t = Some row -> row !! i = Some f0 ->
                   cur_valid lc !! i = Some f0) /\
  (forall t t' row row' i,
      (t < t')%nat -> valids lc !! t = Some row -> valids lc !! t' = Some row' ->
      row !! i = Some f0 -> row' !! i = Some f0).

(** After each timestep the accumulated return of every environment is
    the sum of its rewards recorded under a true validity mask. *)
Definition return_inv (B : nat) (lc : @locals F Qv Img) (w : @worker F Env Pol)
  : Prop :=
  rollout_batch_size (cfg w) = B /\
  length (rewards lc) = length (valids lc) /\
  length (returns lc) = B /\
  forall j, (j < B)%nat ->
            returns lc !! j = Some (fsum (valid_rewards j (rewards lc) (valids lc))).

(** The names of the tracked statistics, in the order of [logs]. *)
Definition log_names (with_Q : bool) : list string :=
  ["num_trajs"; "success_rate"; "once_success_rate"; "return"; "episode_length"]
  ++ (if with_Q then ["mean_Q"] else []) ++ ["episode"].
End Vocabulary.

End Rollout.

(** ** The experiment configuration ([baselines/her/experiment/config.py]) *)

Module Config.

Set Warnings "-register-all".

(** Python values held by the parameter dict. A dict value keeps its items
    in insertion order; a function is named by its identity. *)
Inductive value : Type :=
| VNone
| VBool (b : bool)
| VInt (z : Z)
| VFloat (x : float)
| VStr (s : string)
| VList (l : list value)
| VArray (l : list value)
| VDict (d : list (string * value))
| VFun (f : nat).

(** [float(z)] for a Python int: the nearest binary64 value, OverflowError
    when there is none. *)
Definition float_of_int (z : Z) : res float :=
  let x := SF2Prim (binary_normalize prec emax z 0 false) in
  if PrimFloat.is_infinity x then Raise OverflowError else Ok x.

(** [1. - 1. / v] *)
Definition gamma_of (v : value) : res value :=
  let of_float (x : float) :=
    if PrimFloat.eqb x 0%float then Raise ZeroDivisionError
    else Ok (VFloat (1 - 1 / x)%float) in
  match v with
  | VInt z =>
      if z =? 0 then Raise ZeroDivisionError
      else match float_of_int z with
           | Ok x => of_float x
           | Raise e => Raise e
           end
  | VBool b => if b then of_float 1%float else Raise ZeroDivisionError
  | VFloat x => of_float x
  | _ => Raise TypeError
  end.

(** The libraries the configuration calls into, over environment objects
    [EnvObj] (references) and the state [X] they live in: the environment
    constructors, the attribute [env.env], the [TimeLimit] wrapper, the
    attribute [_max_episode_steps] ([None] when the object has none) and
    [env.reset()]. *)
Class Gym (EnvObj X : Type) : Type := {
  MazeEnv : X -> res EnvObj * X;
  KitchenEnv : X -> res EnvObj * X;
  gym_make : string -> X -> res EnvObj * X;
  unwrapped : EnvObj -> X -> res EnvObj;
  TimeLimit : EnvObj -> value -> X -> res EnvObj * X;
  max_episode_steps : EnvObj -> X -> option value;
  reset : EnvObj -> X -> res unit * X
}.

Section Process.
Context {EnvObj X : Type} {G : Gym EnvObj X}.

(** A function object: what a call does, given the parameter dict it
    refers to and the state of the libraries. *)
Definition body : Type := gmap string value -> X -> res EnvObj * X.

(** The state of the process: the module-level dict [CACHED_ENVS], keyed
    by function object; the function objects created so far (a function
    is named by its index); the parameter dict; the libraries. [invoked]
    logs the calls of a factory made by [cached_make_env], oldest first:
    it is not read by the code. *)
Record process : Type := {
  CACHED_ENVS : gmap nat EnvObj;
  invoked : list nat;
  functions : list body;
  kwargs : gmap string value;
  ext : X
}.

Definition set_cached (f : nat) (env : EnvObj) (p : process) : process :=
  {| CACHED_ENVS := <[f := env]> (CACHED_ENVS p); invoked := invoked p;
     functions := functions p; kwargs := kwargs p; ext := ext p |}.
Definition set_kwargs (k : gmap string value) (p : process) : process :=
  {| CACHED_ENVS := CACHED_ENVS p; invoked := invoked p;
     functions := functions p; kwargs := k; ext := ext p |}.
Definition set_ext (x : X) (p : process) : process :=
  {| CACHED_ENVS := CACHED_ENVS p; invoked := invoked p;
     functions := functions p; kwargs := kwargs p; ext := x |}.
Definition log_invoked (f : nat) (p : process) : process :=
  {| CACHED_ENVS := CACHED_ENVS p; invoked := invoked p ++ [f];
     functions := functions p; kwargs := kwargs p; ext := ext p |}.
Definition add_function (b : body) (p : process) : process :=
  {| CACHED_ENVS := CACHED_ENVS p; invoked := invoked p;
     functions := functions p ++ [b]; kwargs := kwargs p; ext := ext p |}.

(** A call into the libraries *)
Definition lib {A} (k : X -> res A * X) : M process A :=
  fun p => let '(r, x') := k (ext p) in (r, set_ext x' p).

(** [make_env()] inside [cached_make_env] *)
Definition invoke (f : nat) : M process EnvObj :=
  fun p =>
    match functions p !! f with
    | None => (Raise TypeError, p)
    | Some b =>
        let '(r, x') := b (kwargs p) (ext p) in (r, set_ext x' (log_invoked f p))
    end.

Definition cached_make_env (make_env : nat) : M process EnvObj :=
  let* p := get in
  let* _ := match CACHED_ENVS p !! make_env with
            | None =>
                let* env := invoke make_env in
                modify (set_cached make_env env)
            | Some _ => ret tt
            end in
  let* p := get in
  lift_opt KeyError (CACHED_ENVS p !! make_env).

(** [kwargs[k]], [kwargs[k] = v], [del kwargs[k]] *)
Definition kw_get (k : string) : M process value :=
  let* p := get in lift_opt KeyError (kwargs p !! k).
Definition kw_set (k : string) (v : value) : M process unit :=
  modify (fun p => set_kwargs (<[k := v]> (kwargs p)) p).
Definition kw_del (k : string) : M process unit :=
  let* _ := kw_get k in
  modify (fun p => set_kwargs (delete k (kwargs p)) p).

(** The closure [make_env] of [prepare_params]; [env_name] is the value
    bound when the closure is made, [kw] the parameter dict at the call. *)
Definition make_env_body (env_name : value) : body :=
  fun kw x =>
    match env_name with
    | VStr "Maze" => MazeEnv x
    | VStr "Kitchen" =>
        match KitchenEnv x with
        | (Ok env, x1) =>
            match kw !! "max_path_length" with
            | Some n => TimeLimit env n x1
            | None => (Raise KeyError, x1)
            end
        | (Raise e, x1) => (Raise e, x1)
        end
    | VStr name =>
        match gym_make name x with
        | (Ok env, x1) =>
            match kw !! "max_path_length" with
            | Some n =>
                match unwrapped env x1 with
                | Ok env' => TimeLimit env' n x1
                | Raise e => (Raise e, x1)
                end
            | None => (Ok env, x1)
            end
        | (Raise e, x1) => (Raise e, x1)
        end
    | _ => (Raise TypeError, x)
    end.

(** The names moved into [ddpg_params]. *)
Definition ddpg_names : list string :=
  ["buffer_size"; "hidden"; "layers";
   "network_class_actor_critic"; "network_class_discriminator";
   "polyak";
   "batch_size"; "Q_lr"; "pi_lr"; "sk_lr";
   "norm_eps"; "norm_clip"; "max_u";
   "action_l2"; "clip_obs"; "scope"; "relative_goals"].

Fixpoint move_ddpg_params (names : list string) (ddpg_params : list (string * value))
  : M process (list (string * value)) :=
  match names with
  | [] => ret ddpg_params
  | name :: names' =>
      let* v := kw_get name in
      let* _ := kw_set ("_" +:+ name) v in
      let* _ := kw_del name in
      move_ddpg_params names' (ddpg_params ++ [(name, v)])
  end.

(** The first lines of [prepare_params] (lines 96-115): the closure
    [make_env] is made and stored, and [cached_make_env] is asked for its
    environment. *)
Definition make_tmp_env : M process EnvObj :=
  let* env_name := kw_get "env_name" in
  let* p := get in
  let make_env := length (functions p) in
  let* _ := modify (add_function (make_env_body env_name)) in
  let* _ := kw_set "make_env" (VFun make_env) in
  let* mk := kw_get "make_env" in
  match mk with
  | VFun f => cached_make_env f
  | _ => raise TypeError
  end.

(** The rest of [prepare_params] (lines 116-137). *)
Definition prepare_with (tmp_env : EnvObj) : M process (gmap string value) :=
  let* p := get in
  let* _ := assert (bool_decide (is_Some (max_episode_steps tmp_env (ext p)))) in
  let* t := lift_opt AttributeError (max_episode_steps tmp_env (ext p)) in
  let* _ := kw_set "T" t in
  let* _ := lib (reset tmp_env) in
  let* max_u := kw_get "max_u" in
  let* _ := kw_set "max_u" (match max_u with VList l => VArray l | v => v end) in
  let* t := kw_get "T" in
  let* gamma := lift_res (gamma_of t) in
  let* _ := kw_set "gamma" gamma in
  let* p := get in
  let* _ := match kwargs p !! "lr" with
            | Some lr =>
                let* _ := kw_set "pi_lr" lr in
                let* _ := kw_set "Q_lr" lr in
                let* _ := kw_set "sk_lr" lr in
                kw_del "lr"
            | None => ret tt
            end in
  let* ddpg_params := move_ddpg_params ddpg_names [] in
  let* _ := kw_set "ddpg_params" (VDict ddpg_params) in
  let* p := get in
  ret (kwargs p).

(** [prepare_params(kwargs)], on the parameter dict of the process. *)
Definition prepare_params : M process (gmap string value) :=
  let* tmp_env := make_tmp_env in prepare_with tmp_env.

(** What the configuration entry points do with the process, as far as
    the cache can tell: define a function, ask [cached_make_env] for the
    environment of a factory, or work with the libraries
    ([env.reset()], [env.step()], building the agent). *)
Inductive action : Type :=
| DefFunction (b : body)
| CallCached (f : nat)
| UseLibs (k : X -> res unit * X).

(** A run of such actions, stopped by the first exception; the result
    lists the environments [cached_make_env] returned, with the factory
    each was asked for. *)
Fixpoint run (acts : list action) : M process (list (nat * EnvObj)) :=
  match acts with
  | [] => ret []
  | DefFunction b :: acts' =>
      let* _ := modify (add_function b) in run acts'
  | CallCached f :: acts' =>
      let* env := cached_make_env f in
      let* rest := run acts' in
      ret ((f, env) :: rest)
  | UseLibs k :: acts' =>
      let* _ := lib k in run acts'
  end.

(** The process at start-up: [CACHED_ENVS = {}]. *)
Definition start (kw : gmap string value) (x : X) : process :=
  {| CACHED_ENVS := ∅; invoked := []; functions := []; kwargs := kw; ext := x |}.

(** *** Vocabulary of the properties *)



End Process.

End Config.

(** ** A concrete setting: binary64 floats, a counting environment *)

Module Float64.

Open Scope float_scope.

(** [np.float32(x)]: round to nearest even on 24 bits of precision. *)
Definition round_f32 (x : float) : float :=
  match Prim2SF x with
  | S754_finite s m e => SF2Prim (binary_normalize 24 128 (cond_Zopp s (Zpos m)) e s)
  | _ => x
  end.

(** The integer a float is truncated to by a store into an integer array. *)
Definition trunc (x : float) : Z :=
  match Prim2SF x with
  | S754_finite s m e =>
      cond_Zopp s (if (0 <=? e)%Z then Z.shiftl (Zpos m) e else Z.shiftr (Zpos m) (- e))
  | _ => 0%Z
  end.

Definition of_Z (z : Z) : float := SF2Prim (binary_normalize prec emax z 0 false).

(** [np.mean]: the sum from left to right over the number of entries
    (NaN for an empty array). *)
Definition fmean (l : list float) : float :=
  fold_left PrimFloat.add l 0 / of_Z (Z.of_nat (length l)).

Definition ops : Rollout.FloatOps float :=
  {| Rollout.f0 := 0;
     Rollout.f1 := 1;
     Rollout.fadd := PrimFloat.add;
     Rollout.fisnan := PrimFloat.is_nan;
     Rollout.fpos := fun x => 0 <? x;
     Rollout.ftruthy := fun x => negb (x =? 0);
     Rollout.f32 := round_f32;
     Rollout.to_int := trunc;
     Rollout.uninit := 0;
     Rollout.mean := fmean;
     Rollout.mean_int := fun l => fmean (map of_Z l) |}.

(** A goal-conditioned environment that counts its steps. It observes
    the count, rewards each step with 1, is done from step [done_at] on,
    and succeeds then. [fault_at]: the step at which the simulator raises;
    [nan_at]: the step whose observation is NaN. *)
Record counter_env : Type := {
  steps : nat;
  goal : list float;
  done_at : nat;
  fault_at : option nat;
  nan_at : option nat
}.

Definition tick (n : nat) (e : counter_env) : counter_env :=
  {| steps := n; goal := goal e; done_at := done_at e; fault_at := fault_at e;
     nan_at := nan_at e |}.

Definition observe (e : counter_env) : Rollout.observation float :=
  let x := if bool_decide (nan_at e = Some (steps e)) then nan
           else of_Z (Z.of_nat (steps e)) in
  Rollout.ObsDict [x; 0] [x] (goal e).

Definition counter_environment : Rollout.Environment float counter_env unit :=
  {| Rollout.env_reset := fun e => let e' := tick 0 e in (Ok (observe e'), e');
     Rollout.env_step := fun _ e =>
       let e' := tick (S (steps e)) e in
       if bool_decide (fault_at e = Some (steps e')) then (Raise MujocoException, e')
       else
         let done := bool_decide (done_at e <= steps e')%nat in
         (Ok (observe e', 1, done,
              {[ "is_success" := [if done then 1 else 0] ]} : Rollout.info float), e');
     Rollout.env_set_goal := fun v e =>
       {| steps := steps e; goal := v; done_at := done_at e; fault_at := fault_at e;
          nan_at := nan_at e |};
     Rollout.env_render := fun _ e => (Ok tt, e) |}.

(** A policy that answers one zero action per row of the observation
    batch, with a Q estimate of 1/2 when asked, and counts its calls. *)
Definition zero_policy : Rollout.Policy float nat float :=
  {| Rollout.get_actions := fun a n =>
       let u := Rollout.Act2 (map (fun _ => [0]) (Rollout.a_o a)) in
       (Ok (if Rollout.a_compute_Q a then Rollout.OutUQ u 0.5 else Rollout.OutU u), S n);
     Rollout.mean_Q := fmean |}.

(** An environment that is done at step [done_at] and samples the goal
    [[7; 7]]; one whose simulator raises at step [n]; one that observes
    NaN at step [n]. *)
Definition env0 (done_at : nat) : counter_env :=
  {| steps := 0; goal := [7; 7]; done_at := done_at; fault_at := None; nan_at := None |}.
Definition faulty_env (n : nat) : counter_env :=
  {| steps := 0; goal := [7; 7]; done_at := 9; fault_at := Some n; nan_at := None |}.
Definition nan_env (n : nat) : counter_env :=
  {| steps := 0; goal := [7; 7]; done_at := 9; fault_at := None; nan_at := Some n |}.

Definition dims0 : list (string * nat) :=
  [("o", 2%nat); ("z", 1%nat); ("u", 1%nat); ("g", 2%nat); ("info_is_success", 1%nat)].

Definition cfg0 (horizon : Z) (batch : nat) (exploit : bool) : Rollout.config :=
  {| Rollout.dims := dims0;
     Rollout.T := horizon;
     Rollout.rollout_batch_size := batch;
     Rollout.exploit := exploit;
     Rollout.use_target_net := false;
     Rollout.compute_Q := true;
     Rollout.noise_eps := 0.25;
     Rollout.random_eps := 0.375;
     Rollout.history_len := Some 100%nat;
     Rollout.render := Rollout.RenderOff;
     Rollout.info_keys := Rollout.info_keys_of dims0 |}.

(** A worker over the environments [es], with empty histories and zeroed
    buffers of one row per environment. *)
Definition worker0 (horizon : Z) (exploit : bool) (es : list counter_env)
  : @Rollout.worker float counter_env nat :=
  {| Rollout.cfg := cfg0 horizon (length es) exploit;
     Rollout.envs := es;
     Rollout.policy := 0%nat;
     Rollout.stats := {| Rollout.success_history := []; Rollout.Q_history := [];
                         Rollout.episode_length_history := [];
                         Rollout.once_success_history := [];
                         Rollout.return_history := []; Rollout.n_episodes := 0 |};
     Rollout.g := Np.full2 (length es) 2 0;
     Rollout.initial_o := Np.full2 (length es) 2 0;
     Rollout.initial_ag := Np.full2 (length es) 2 0;
     Rollout.warnings := [] |}.

(** [RolloutWorker(make_env, policy, dims, logger, T, ...)] for a factory
    that hands out the environments of a list, one after the other. *)
Definition from_list (es : list counter_env) : res counter_env * list counter_env :=
  match es with
  | e :: es' => (Ok e, es')
  | [] => (Raise ValueError, [])
  end.

Definition make_worker (horizon : Z) (es : list counter_env)
  : res (@Rollout.worker float counter_env nat) :=
  fst (@Rollout.init float counter_env nat unit ops counter_environment _ from_list
         0%nat [] (cfg0 horizon (length es) false) es).


(** Two environments under one worker of horizon 3: the first is done at
    its second step, the second runs on. *)
Definition two_envs : @Rollout.worker float counter_env nat :=
  worker0 3 false [env0 2; env0 5].

(** One skill and one generated goal per environment. *)
Definition skills2 : Rollout.skill_arg float := Rollout.SkillArray [[1]; [1]]%float.
Definition goals2 : Rollout.goal_arg float :=
  Rollout.GoalArray [[0.5; 0.25]; [1; 2]]%float.

End Float64.

(** ** A concrete setting for the configuration: a registry of environments *)

Module Registry.
Import Config.

(** The environment objects made so far, each with its attribute
    [_max_episode_steps] if it has one; an object is named by its index. *)
Definition heap : Type := list (option value).

Definition alloc (attr : option value) (x : heap) : res nat * heap :=
  (Ok (length x), x ++ [attr]).

(** A registry that knows ["FetchReach-v1"], limited to 50 steps; the maze
    and the kitchen come without a step limit of their own, and
    [TimeLimit] records the limit it is given. *)
Definition registry : Gym nat heap :=
  {| MazeEnv := alloc None;
     KitchenEnv := alloc None;
     gym_make := fun name x =>
       if String.eqb name "FetchReach-v1" then alloc (Some (VInt 50)) x
       else (Raise KeyError, x);
     unwrapped := fun e _ => Ok e;
     TimeLimit := fun _ n => alloc (Some n);
     max_episode_steps := fun e x => mjoin (x !! e);
     reset := fun _ x => (Ok tt, x) |}.

(** The parameters of a run on environment [env_name]. *)
Definition params (env_name : string) : gmap string value :=
  list_to_map
    [("env_name", VStr env_name); ("max_u", VFloat 1%float);
     ("buffer_size", VInt 1000000); ("hidden", VInt 256); ("layers", VInt 3);
     ("network_class_actor_critic", VStr "baselines.her.actor_critic:ActorCritic");
     ("network_class_discriminator", VStr "baselines.her.discriminator:Discriminator");
     ("polyak", VFloat 0.5%float); ("batch_size", VInt 256);
     ("Q_lr", VFloat 0.5%float); ("pi_lr", VFloat 0.5%float); ("sk_lr", VFloat 0.5%float);
     ("norm_eps", VFloat 0.5%float); ("norm_clip", VInt 5);
     ("action_l2", VFloat 1%float); ("clip_obs", VFloat 200%float);
     ("scope", VStr "ddpg"); ("relative_goals", VBool false);
     ("rollout_batch_size", VInt 2)].

(** A process started on the registered environment, and one on the maze. *)
Definition fetch : @process nat heap := start (params "FetchReach-v1") [].
Definition maze : @process nat heap := start (params "Maze") [].


End Registry.

(** * Properties *)

(** ** Reasoning about computations *)

Module PyFacts.

Section Monad.
Context {S A B : Type}.

Lemma bind_ok (c : M S A) (k : A -> M S B) s b s' :
  bind c k s = (Ok b, s') ->
  exists a s1, c s = (Ok a, s1) /\ k a s1 = (Ok b, s').
Proof.
  unfold bind. destruct (c s) as [[a | e] s1]; [eauto | discriminate].
Qed.

Lemma bind_step (c : M S A) (k : A -> M S B) s a s1 :
  c s = (Ok a, s1) -> bind c k s = k a s1.
Proof. unfold bind. now intros ->. Qed.

Lemma bind_raise (c : M S A) (k : A -> M S B) s e s1 :
  c s = (Raise e, s1) -> bind c k s = (Raise e, s1).
Proof. unfold bind. now intros ->. Qed.

(** A computation whose continuation always raises never returns. *)
Lemma bind_never_ok (c : M S A) (k : A -> M S B) s :
  (forall a s1, is_ok (fst (k a s1)) = false) ->
  is_ok (fst (bind c k s)) = false.
Proof.
  intros Hk. unfold bind. destruct (c s) as [[a | e] s1]; [apply Hk | reflexivity].
Qed.

Lemma ret_ok (a a' : A) (s s' : S) : ret a s = (Ok a', s') -> a' = a /\ s' = s.
Proof. unfold ret. intros [= <- <-]. auto. Qed.

Lemma get_ok (s s1 s' : S) : get s = (Ok s1, s') -> s1 = s /\ s' = s.
Proof. unfold get. intros [= <- <-]. auto. Qed.

Lemma modify_ok (f : S -> S) s u s' : modify f s = (Ok u, s') -> s' = f s.
Proof. unfold modify. now intros [= <-]. Qed.

Lemma lift_opt_ok e (o : option A) (s : S) a s' :
  lift_opt e o s = (Ok a, s') -> o = Some a /\ s' = s.
Proof. destruct o; cbn; [intros [= <- <-]; auto | discriminate]. Qed.

Lemma raise_ok e (s : S) (a : A) s' : raise e s = (Ok a, s') -> False.
Proof. discriminate. Qed.

(** An outcome is known as soon as its result is: the state is whatever
    the run leaves. *)
Lemma outcome_of_result (p : res A * S) (r : res A) : fst p = r -> p = (r, snd p).
Proof. destruct p. cbn. congruence. Qed.
End Monad.

(** Takes apart a hypothesis [c s = (Ok a, s')] along the binds of [c]. *)
Ltac run1 :=
  match goal with
  | H : bind _ _ _ = (Ok _, _) |- _ =>
      let E := fresh "E" in
      apply bind_ok in H; destruct H as (? & ? & E & H)
  | H : ret _ _ = (Ok _, _) |- _ => apply ret_ok in H; destruct H as [? ?]; subst
  | H : get _ = (Ok _, _) |- _ => apply get_ok in H; destruct H as [? ?]; subst
  | H : modify _ _ = (Ok _, _) |- _ => apply modify_ok in H; subst
  | H : lift_opt _ _ _ = (Ok _, _) |- _ => apply lift_opt_ok in H; destruct H as [H ?]; subst
  | H : raise _ _ = (Ok _, _) |- _ => destruct (raise_ok _ _ _ _ H)
  end.
Ltac run := repeat run1.

End PyFacts.
Import PyFacts.

(** ** The rollout worker *)

Module RolloutFacts.
Import Rollout.

Section Facts.
Context {F Env Pol Qv Img : Type}.
Context {FO : FloatOps F} {EI : Environment F Env Img} {PI : Policy F Pol Qv}.
Implicit Types (w : @worker F Env Pol) (lc : @locals F Qv Img) (sb : @stepbuf F).

Lemma call_env_ok {A} i (f : Env -> res A * Env) w a w' :
  call_env i f w = (Ok a, w') ->
  exists e e', envs w !! i = Some e /\ f e = (Ok a, e') /\
               w' = set_envs (<[i := e']> (envs w)) w.
Proof.
  unfold call_env. destruct (envs w !! i) as [e|]; [|discriminate].
  destruct (f e) as [r e'] eqn:Ef. intros [= -> <-]. eauto.
Qed.

Lemma call_env_frame {A} i (f : Env -> res A * Env) w a w' :
  call_env i f w = (Ok a, w') ->
  frame_of w' = frame_of w /\ length (envs w') = length (envs w).
Proof.
  intros H. apply call_env_ok in H as (e & e' & _ & _ & ->).
  split; [reflexivity | cbn; apply length_insert].
Qed.

Lemma assign_row_ok cast (arr : list (list F)) i src w arr' w' :
  assign_row cast arr i src w = (Ok arr', w') ->
  w' = w /\ exists old row,
    arr !! i = Some old /\ Np.store_row cast (length old) src = Some row /\
    arr' = <[i := row]> arr.
Proof.
  unfold assign_row, at_. intros H. run. split; [reflexivity | eauto 6].
Qed.

Lemma assign_row_length cast (arr : list (list F)) i src w arr' w' :
  assign_row cast arr i src w = (Ok arr', w') -> w' = w /\ length arr' = length arr.
Proof.
  intros H. apply assign_row_ok in H as (-> & old & row & _ & _ & ->).
  split; [reflexivity | apply length_insert].
Qed.

Lemma store_row_length cast width (src row : list F) :
  Np.store_row cast width src = Some row -> length row = width.
Proof.
  unfold Np.store_row. case_decide as Hl.
  - intros [= <-]. now rewrite length_map.
  - destruct src as [|x [|? ?]]; try discriminate.
    intros [= <-]. apply length_replicate.
Qed.

Lemma scalar_ok (v : list F) w x w' :
  scalar v w = (Ok x, w') -> v = [x] /\ w' = w.
Proof.
  destruct v as [|y [|? ?]]; cbn; try discriminate. intros H. run. auto.
Qed.

Lemma shape2_insert {A} n m (a : list (list A)) t r :
  shape2 n m a -> length r = m -> shape2 n m (<[t := r]> a).
Proof.
  intros [Hn Hm] Hr. split.
  - now rewrite length_insert.
  - apply Forall_insert; assumption.
Qed.

Lemma store_info_ok t i inf idx keys iv w iv' w' :
  store_info t i inf idx keys iv w = (Ok iv', w') ->
  w' = w /\ forall n m, Forall (shape2 n m) iv -> Forall (shape2 n m) iv'.
Proof.
  revert idx iv. induction keys as [|key keys IH]; intros idx iv H; cbn in H.
  - run. auto.
  - unfold at_ in H. run.
    match goal with H : assign_row _ _ _ _ _ = _ |- _ =>
      apply assign_row_ok in H as (-> & old & row & Hold & Hrow & ->) end.
    apply IH in H as [-> Hsh]. split; [reflexivity|].
    intros n m Hiv. apply Hsh. apply Forall_insert; [assumption|].
    match goal with Hc : iv !! idx = Some ?c, Hp : ?c !! t = Some _ |- _ =>
      pose proof (Forall_lookup_1 _ _ _ _ Hiv Hc) as Hchan;
      apply shape2_insert; [assumption|];
      rewrite length_insert;
      destruct Hchan as [_ Hch]; apply (Forall_lookup_1 _ _ _ _ Hch Hp)
    end.
Qed.

Lemma bind_raises {A B} (c : M (@worker F Env Pol) A) (k : A -> M worker B) w :
  (forall a w1, exists e w', k a w1 = (Raise e, w')) ->
  exists e w', bind c k w = (Raise e, w').
Proof.
  intros Hk. unfold bind. destruct (c w) as [[a|e] w1]; [apply Hk | eauto].
Qed.

(** Symbolic execution of a completed computation: takes the binds,
    the case distinctions and the array stores apart. *)
Ltac exec1 :=
  match goal with
  | |- _ => run1
  | H : at_ _ _ _ = (Ok _, _) |- _ => unfold at_ in H
  | H : scalar _ _ = (Ok _, _) |- _ =>
      apply scalar_ok in H; destruct H as [? ?]; subst
  | H : assign_row _ _ _ _ _ = (Ok _, _) |- _ =>
      apply assign_row_ok in H; destruct H as (? & ? & ? & ? & ? & ?); subst
  | H : store_info _ _ _ _ _ _ _ = (Ok _, _) |- _ =>
      apply store_info_ok in H; destruct H as [? ?]; subst
  | H : call_env _ _ _ = (Ok _, _) |- _ =>
      apply call_env_ok in H; destruct H as (? & ? & ? & ? & ?); subst
  | H : (match ?x with _ => _ end) _ = (Ok _, _) |- _ => destruct x eqn:?
  | H : (_, _) = (_, _) |- _ => injection H as ? ?; subst
  | H : Ok _ = Ok _ |- _ => injection H as ?; subst
  end.
Ltac exec := repeat exec1.

(** What the body of the [try] does for environment [i], when it
    completes. *)
Lemma step_env_ok t i u lc sb w lc' sb' w' :
  step_env t i u (lc, sb) w = (Ok (lc', sb'), w') ->
  (frame_of w' = frame_of w /\ length (envs w') = length (envs w)) /\
  history lc' = history lc /\
  (exists reward done v r0,
      cur_reward sb' = <[i := reward]> (cur_reward sb) /\
      cur_done sb' = <[i := of_bool done]> (cur_done sb) /\
      cur_valid lc !! i = Some v /\ returns lc !! i = Some r0 /\
      returns lc' = if ftruthy v then <[i := fadd r0 reward]> (returns lc)
                    else returns lc) /\
  (length (o_new sb') = length (o_new sb) /\
   length (ag_new sb') = length (ag_new sb) /\
   length (success sb') = length (success sb)) /\
  (forall n m, Forall (shape2 n m) (info_values lc) ->
               Forall (shape2 n m) (info_values lc')).
Proof.
  unfold step_env. intros H. exec.
  all: cbn.
  all: split; [split; [reflexivity | now rewrite ?length_insert] |].
  all: split; [reflexivity |].
  all: split; [eauto 10 |].
  all: split; [now rewrite ?length_insert |].
  all: auto.
Qed.

Lemma step_envs_cons t u i ixs (st : @locals F Qv Img * @stepbuf F) w :
  step_envs t u (i :: ixs) st w =
  match step_env t i u st w with
  | (Ok st', w') => step_envs t u ixs st' w'
  | (Raise MujocoException, w') => (Ok Restart, w')
  | (Raise e, w') => (Raise e, w')
  end.
Proof. reflexivity. Qed.

(** The pass over the environments at one timestep, when no simulator
    fault interrupts it. For an environment [j] of the pass, the return
    grows by the reward stored in [cur_reward] exactly when [cur_valid]
    is true; the other cells are kept. *)
Lemma step_envs_done t u ixs lc sb w lc1 sb1 w1 :
  NoDup ixs ->
  step_envs t u ixs (lc, sb) w = (Ok (Done (lc1, sb1)), w1) ->
  (frame_of w1 = frame_of w /\ length (envs w1) = length (envs w)) /\
  history lc1 = history lc /\
  (length (o_new sb1) = length (o_new sb) /\
   length (ag_new sb1) = length (ag_new sb) /\
   length (success sb1) = length (success sb) /\
   length (cur_reward sb1) = length (cur_reward sb) /\
   length (cur_done sb1) = length (cur_done sb) /\
   length (returns lc1) = length (returns lc)) /\
  (forall n m, Forall (shape2 n m) (info_values lc) ->
               Forall (shape2 n m) (info_values lc1)) /\
  (forall j,
      (j ∈ ixs -> exists v r0 reward,
          cur_valid lc !! j = Some v /\ returns lc !! j = Some r0 /\
          returns lc1 !! j = Some (if ftruthy v then fadd r0 reward else r0) /\
          (j < length (cur_reward sb) -> cur_reward sb1 !! j = Some reward)%nat) /\
      (j ∉ ixs -> returns lc1 !! j = returns lc !! j /\
                  cur_reward sb1 !! j = cur_reward sb !! j)).
Proof.
  intros Hnd. revert lc sb w.
  induction ixs as [|i ixs IH]; intros lc sb w H.
  - cbn in H. run. simplify_eq.
    repeat split; auto. intros Hj. inversion Hj.
  - apply NoDup_cons in Hnd as [Hi Hnd].
    destruct (step_env t i u (lc, sb) w) as [[[lc' sb'] | e] w'] eqn:Hstep.
    all: rewrite step_envs_cons, Hstep in H.
    2: { destruct e; discriminate H. }
    apply step_env_ok in Hstep
      as ([Hfr Hlen] & Hhist & (reward & done & v & r0 & Hcr & Hcd & Hv & Hr0 & Hret)
          & (Ho & Hag & Hsu) & Hinfo).
    apply (IH Hnd) in H
      as ([Hfr1 Hlen1] & Hhist1 & (Ho1 & Hag1 & Hsu1 & Hcr1 & Hcd1 & Hrt1) & Hinfo1 & Hrel).
    assert (Hcv : cur_valid lc' = cur_valid lc).
    { unfold history in Hhist. now injection Hhist. }
    split; [split; congruence |].
    split; [congruence |].
    split.
    { rewrite Ho1, Hag1, Hsu1, Hcr1, Hcd1, Hrt1, Ho, Hag, Hsu, Hcr, Hcd, Hret.
      rewrite !length_insert. repeat split.
      destruct (ftruthy v); [apply length_insert | reflexivity]. }
    split; [auto |].
    intros j. split.
    + intros Hj. apply elem_of_cons in Hj as [-> | Hj].
      * destruct (Hrel i) as [_ Hout]. destruct (Hout Hi) as [Hr Hc].
        exists v, r0, reward. repeat split; [assumption | assumption | |].
        -- rewrite Hr, Hret. pose proof (lookup_lt_Some _ _ _ Hr0) as Hlt.
           destruct (ftruthy v); [now apply list_lookup_insert_eq | assumption].
        -- intros Hlt. rewrite Hc, Hcr. now apply list_lookup_insert_eq.
      * assert (Hne : i <> j) by (intros ->; contradiction).
        destruct (Hrel j) as [Hin _].
        destruct (Hin Hj) as (v' & r0' & reward' & Hv' & Hr0' & Hret' & Hc').
        exists v', r0', reward'. rewrite Hcv in Hv'.
        repeat split; [assumption | | assumption |].
        -- rewrite Hret in Hr0'. destruct (ftruthy v); [|assumption].
           now rewrite list_lookup_insert_ne in Hr0'.
        -- intros Hlt. apply Hc'. rewrite Hcr. now rewrite length_insert.
    + intros Hj. apply not_elem_of_cons in Hj as [Hne Hj].
      destruct (Hrel j) as [_ Hout]. destruct (Hout Hj) as [Hr Hc].
      split.
      * rewrite Hr, Hret. destruct (ftruthy v); [|reflexivity].
        now apply list_lookup_insert_ne.
      * rewrite Hc, Hcr. now apply list_lookup_insert_ne.
Qed.

(** The loop that clears the validity of the environments that are
    done: a cell is kept or set to [0.]. *)
Lemma invalidate_ok cd ixs (cv : list F) w cv' w' :
  invalidate cd ixs cv w = (Ok cv', w') ->
  w' = w /\ length cv' = length cv /\
  (forall j, cv !! j = Some f0 -> cv' !! j = Some f0) /\
  (forall j x, cv' !! j = Some x -> x = f0 \/ cv !! j = Some x).
Proof.
  revert cv. induction ixs as [|i ixs IH]; intros cv H; cbn in H.
  - run. auto.
  - unfold at_ in H. run. apply IH in H as (-> & Hlen & Hkeep & Hval).
    destruct (ftruthy _).
    + rewrite length_insert in Hlen. split; [reflexivity|]. split; [assumption|]. split.
      * intros j Hj. apply Hkeep. destruct (decide (i = j)) as [->|Hne].
        -- apply list_lookup_insert_eq. now apply lookup_lt_Some in Hj.
        -- now rewrite list_lookup_insert_ne.
      * intros j y Hj. destruct (Hval _ _ Hj) as [->|Hy]; [now left|].
        destruct (decide (i = j)) as [->|Hne].
        -- left. pose proof (lookup_lt_Some _ _ _ Hy) as Hlt.
           rewrite length_insert in Hlt.
           rewrite list_lookup_insert_eq in Hy by assumption. congruence.
        -- right. now rewrite list_lookup_insert_ne in Hy.
    + auto.
Qed.

Lemma dim_ok k w d w' :
  dim k w = (Ok d, w') -> w' = w /\ Np.assoc k (dims (cfg w)) = Some d.
Proof. unfold dim. intros H. run. auto. Qed.

Lemma call_policy_ok a w out w' :
  call_policy a w = (Ok out, w') ->
  exists pol', get_actions a (policy w) = (Ok out, pol') /\ w' = set_policy pol' w.
Proof.
  unfold call_policy. destruct (get_actions a (policy w)) as [r p'].
  intros [= -> <-]. eauto.
Qed.

(** One timestep that goes through: the policy is asked, every
    environment is stepped, no observation is NaN, the step is appended
    to the buffers and the validity mask is updated. *)
Lemma rollout_step_done ra t lc w lc' w' :
  rollout_step ra t lc w = (Ok (Done lc'), w') ->
  exists out pol' d_o d_g lc1 sb1 cv1 qs,
    let B := rollout_batch_size (cfg w) in
    get_actions (policy_args w ra lc) (policy w) = (Ok out, pol') /\
    step_envs t (rows_of out) (seq 0 B)
      (lc, {| o_new := Np.full2 B d_o uninit; ag_new := Np.full2 B d_g uninit;
              success := Np.full B f0; cur_reward := Np.full B f0;
              cur_done := Np.full B f0 |})
      (set_policy pol' w) = (Ok (Done (lc1, sb1)), w') /\
    invalidate (cur_done sb1) (seq 0 (length (cur_valid lc1))) (cur_valid lc1) w'
      = (Ok cv1, w') /\
    lc' = {| o := map (map f32) (o_new sb1); ag := map (map f32) (ag_new sb1);
             z := z lc1;
             obs := obs lc1 ++ [o lc1];
             zs := zs lc1 ++ [z lc1];
             achieved_goals := achieved_goals lc1 ++ [ag lc1];
             acts := acts lc1 ++ [rows_of out];
             goals := goals lc1 ++ [g w'];
             successes := successes lc1 ++ [success sb1];
             rewards := rewards lc1 ++ [cur_reward sb1];
             dones := dones lc1 ++ [cur_done sb1];
             valids := valids lc1 ++ [cur_valid lc1];
             imgs := imgs lc1; info_values := info_values lc1; Qs := qs;
             cur_valid := cv1; lengths := lengths lc1;
             once_successes := once_successes lc1; returns := returns lc1 |}.
Proof.
  unfold rollout_step. intros H. run.
  match goal with H : call_policy _ _ = _ |- _ =>
    apply call_policy_ok in H as (pol' & Hpol & ->) end.
  assert (exists qs, x3 = (match x1 with OutU u | OutUQ u _ => u end, qs)
                     /\ x4 = set_policy pol' w) as (qs & -> & ->).
  { destruct (compute_Q (cfg w)), x1; run; eauto. }
  run.
  repeat match goal with H : dim _ _ = _ |- _ => apply dim_ok in H as [-> ?] end.
  match goal with H : step_envs _ ?u _ _ _ = (Ok ?r, _) |- _ =>
    replace u with (rows_of x1) in * by (destruct x1 as [[?|?]|[?|?] ?]; reflexivity);
    destruct r as [[lc1 sb1]|] end; [|run; discriminate].
  destruct (existsb (existsb fisnan) (o_new sb1)); run; [discriminate|].
  match goal with H : invalidate _ _ _ _ = _ |- _ =>
    pose proof (invalidate_ok _ _ _ _ _ _ H) as (-> & _) end.
  simplify_eq. eauto 12.
Qed.

Lemma kept_by_reset_refl w : kept_by_reset w w.
Proof. repeat split. Qed.

Lemma kept_by_reset_trans w1 w2 w3 :
  kept_by_reset w1 w2 -> kept_by_reset w2 w3 -> kept_by_reset w1 w3.
Proof. unfold kept_by_reset. intuition congruence. Qed.

(** Resetting environment [i]: the other rows of [self.g] are kept, and
    with a [generated_goal] whose row [i] has the width of the goal
    buffer, on a goal-conditioned environment, row [i] becomes that row
    converted to float32. *)
Lemma reset_rollout_ok i gg w u w' :
  reset_rollout i gg w = (Ok u, w') ->
  kept_by_reset w w' /\
  (forall j, j <> i -> g w' !! j = g w !! j) /\
  (forall j old, g w !! j = Some old ->
                 exists new, g w' !! j = Some new /\ length new = length old) /\
  (goal_conditioned ->
   forall rows row old,
     gg = GoalArray rows -> rows !! i = Some row -> g w !! i = Some old ->
     length row = length old -> g w' !! i = Some (map f32 row)).
Proof.
  unfold reset_rollout. intros H. exec.
  all: cbn in *.
  all: split; [unfold kept_by_reset; cbn; rewrite ?length_insert; repeat split |].
  all: split; [intros j Hj; now rewrite ?list_lookup_insert_ne by congruence |].
  all: split;
    [ intros j old Hold; destruct (decide (i = j)) as [<- | Hne];
      [ rewrite !list_lookup_insert_eq
          by (rewrite ?length_insert; eapply lookup_lt_Some; eassumption);
        eexists; split; [reflexivity |]
      | rewrite !list_lookup_insert_ne by assumption; eauto ]
    |].
  all: repeat match goal with
         | H : <[?k:=_]> _ !! ?k = Some _ |- _ =>
             rewrite list_lookup_insert_eq in H
               by (rewrite ?length_insert; eapply lookup_lt_Some; eassumption);
             injection H as <-
         end.
  all: try (intros Hgc; destruct (Hgc _ _ _ ltac:(eassumption)) as (? & ? & ? & ?);
            discriminate).
  all: try (intros _ rows' row old [= <-] Hrow Hg Hlen;
            rewrite list_lookup_insert_eq
              by (rewrite ?length_insert; eapply lookup_lt_Some; eassumption);
            f_equal).
  all: try (intros _ ? ? ? ?; discriminate).
  all: repeat match goal with
         | H : Np.store_row _ _ _ = Some _ |- _ =>
             pose proof (store_row_length _ _ _ _ H); revert H
         end; intros.
  all: rewrite ?length_replicate; try congruence.
  match goal with H : Np.store_row f32 _ ?src = Some ?r |- ?r = _ =>
    unfold Np.store_row in H; rewrite decide_True in H by congruence;
    congruence end.
Qed.

Lemma for_reset_ok ixs gg w u w' :
  NoDup ixs ->
  for_ ixs (fun i => reset_rollout i gg) w = (Ok u, w') ->
  kept_by_reset w w' /\
  (forall j, j ∉ ixs -> g w' !! j = g w !! j) /\
  (forall j old, g w !! j = Some old ->
                 exists new, g w' !! j = Some new /\ length new = length old) /\
  (goal_conditioned ->
   forall rows j row old,
     gg = GoalArray rows -> j ∈ ixs -> rows !! j = Some row -> g w !! j = Some old ->
     length row = length old -> g w' !! j = Some (map f32 row)).
Proof.
  intros Hnd. revert w. induction ixs as [|i ixs IH]; intros w H; cbn in H.
  - run. split; [apply kept_by_reset_refl|]. split; [auto|]. split; [eauto|].
    intros _ rows j row old _ Hj. inversion Hj.
  - apply NoDup_cons in Hnd as [Hi Hnd]. run.
    match goal with H : reset_rollout _ _ _ = _ |- _ =>
      apply reset_rollout_ok in H as (Hk1 & Hoth1 & Hw1 & Hg1) end.
    apply (IH Hnd) in H as (Hk2 & Hoth2 & Hw2 & Hg2).
    split; [eapply kept_by_reset_trans; eassumption|].
    split.
    { intros j Hj. apply not_elem_of_cons in Hj as [Hne Hj].
      rewrite Hoth2 by assumption. now apply Hoth1. }
    split.
    { intros j old Hold. destruct (Hw1 _ _ Hold) as (mid & Hmid & Hl1).
      destruct (Hw2 _ _ Hmid) as (new & Hnew & Hl2). exists new. split; congruence. }
    intros Hgc rows j row old -> Hj Hrow Hold Hlen.
    apply elem_of_cons in Hj as [-> | Hj].
    + rewrite Hoth2 by assumption. eapply Hg1; eauto.
    + assert (Hne : j <> i) by (intros ->; contradiction).
      eapply Hg2; eauto. now rewrite Hoth1.
Qed.

Lemma reset_all_rollouts_ok gg w u w' :
  reset_all_rollouts gg w = (Ok u, w') ->
  kept_by_reset w w' /\
  (goal_conditioned ->
   forall rows j row old,
     gg = GoalArray rows -> (j < rollout_batch_size (cfg w))%nat ->
     rows !! j = Some row -> g w !! j = Some old ->
     length row = length old -> g w' !! j = Some (map f32 row)).
Proof.
  unfold reset_all_rollouts. intros H. run.
  apply for_reset_ok in H as (Hk & _ & _ & Hg); [|apply NoDup_seq].
  split; [assumption|]. intros Hgc rows j row old Hgg Hj. eapply Hg; eauto.
  apply elem_of_seq. lia.
Qed.

(** Induction over the timesteps of an attempt that completes; [n] counts
    the timesteps done. *)
Lemma rollout_loop_done (P : nat -> @locals F Qv Img -> @worker F Env Pol -> Prop) ra ts :
  (forall t n lc w lc1 w1,
      P n lc w -> rollout_step ra t lc w = (Ok (Done lc1), w1) -> P (S n) lc1 w1) ->
  forall n lc w lc' w',
    rollout_loop ra ts lc w = (Ok (Done lc'), w') -> P n lc w ->
    P (n + length ts)%nat lc' w'.
Proof.
  intros Hstep. induction ts as [|t ts IH]; intros n lc w lc' w' H HP; cbn in H.
  - run. simplify_eq. cbn. now rewrite Nat.add_0_r.
  - run. match goal with H : rollout_step _ _ _ _ = (Ok ?r, _) |- _ =>
      destruct r as [lc1|] end; [|run; discriminate].
    cbn [length]. rewrite Nat.add_succ_r, <- Nat.add_succ_l.
    eapply IH; [eassumption|]. eapply Hstep; eassumption.
Qed.

(** The info buffers as allocated. *)
Lemma info_values_alloc n b keys w iv w' :
  map_M (fun key => let* d := dim ("info_" +:+ key) in
                    ret (replicate n (Np.full2 b d uninit))) keys w = (Ok iv, w') ->
  w' = w /\ length iv = length keys /\ Forall (shape2 n b) iv.
Proof.
  revert iv. induction keys as [|key keys IH]; intros iv H; cbn in H.
  - run. auto.
  - run. match goal with H : dim _ _ = _ |- _ => apply dim_ok in H as [-> _] end.
    match goal with H : map_M _ _ _ = _ |- _ => apply IH in H as (-> & Hl & Hs) end.
    split; [reflexivity|]. split; [cbn; congruence|].
    constructor; [|assumption]. split; [apply length_replicate|].
    apply Forall_replicate. unfold Np.full2. apply length_replicate.
Qed.

(** An attempt that completes: the resets, the loop from the initial
    locals, and the statistics. *)
Lemma rollout_attempt_done gg zarg ra w fr ep lc w' :
  rollout_attempt gg zarg ra w = (Ok (Done (fr, ep, lc)), w') ->
  exists w0 z0 iv0 wl successful,
    let c := cfg w0 in
    let B := rollout_batch_size c in
    reset_all_rollouts gg w = (Ok tt, w0) /\
    zarg = SkillArray z0 /\
    Forall (shape2 (Z.to_nat (T c)) B) iv0 /\
    rollout_loop ra (seq 0 (Z.to_nat (T c)))
      {| o := initial_o w0; ag := initial_ag w0; z := z0;
         obs := []; zs := []; achieved_goals := []; acts := []; goals := [];
         successes := []; rewards := []; dones := []; valids := [];
         imgs := match render c with
                 | RenderRgbArray | RenderHuman =>
                     replicate B (replicate (Z.to_nat (T c)) None)
                 | RenderOff | RenderOther => []
                 end;
         info_values := iv0; Qs := [];
         cur_valid := Np.full B f1; lengths := Np.full B (-1);
         once_successes := Np.full B 0; returns := Np.full B f0 |} w0
      = (Ok (Done lc), wl) /\
    last (successes lc) = Some successful /\
    ep = {| ep_o := obs lc ++ [o lc]; ep_z := zs lc; ep_u := acts lc;
            ep_g := goals lc; ep_ag := achieved_goals lc ++ [ag lc];
            ep_myr := rewards lc; ep_myd := dones lc; ep_myv := valids lc;
            ep_info := zip_with (fun key value => ("info_" +:+ key, value))
                                (info_keys c) (info_values lc) |} /\
    w' = set_stats (record_stats c successful lc (stats wl))
                   (set_initial_o (o lc) wl).
Proof.
  unfold rollout_attempt. intros H. run.
  repeat match goal with H : dim _ _ = _ |- _ => apply dim_ok in H as [-> ?] end.
  destruct zarg as [|z0]; run.
  match goal with H : map_M _ _ _ = _ |- _ =>
    apply info_values_alloc in H as (-> & _ & Hiv) end.
  match goal with H : rollout_loop _ _ _ _ = (Ok ?r, _) |- _ =>
    destruct r as [lc1|] end; [|run; discriminate].
  run.
  repeat match goal with u : unit |- _ => destruct u end.
  exists x0, z0. do 3 eexists.
  destruct (render (cfg x0)); run; simplify_eq; repeat split; eauto.
Qed.

(** *** The restarts *)

(** With the default [z_s_onehot=False] an attempt stops at
    [z_s_onehot.copy()], if not before. *)
Lemma attempt_without_skills_raises gg ra w :
  exists e w', rollout_attempt gg SkillFalse ra w = (Raise e, w').
Proof.
  unfold rollout_attempt.
  do 4 (apply bind_raises; intros ? ?).
  cbn. eauto.
Qed.

(** The call [self.generate_rollouts()] of a restart never returns. *)
Lemma restart_raises fuel w :
  exists e w', generate_rollouts fuel GoalFalse SkillFalse false w = (Raise e, w').
Proof.
  destruct fuel as [|fuel]; cbn [generate_rollouts]; [unfold raise; eauto|].
  destruct (attempt_without_skills_raises GoalFalse false w) as (e & w' & E).
  rewrite (bind_raise _ _ _ _ _ E). eauto.
Qed.

(** C1. When an attempt reaches one of the two restarts, after a
    simulator fault or a NaN observation, the call that follows is
    [self.generate_rollouts()]: it runs with the defaults
    [generated_goal=False], [z_s_onehot=False], [random_action=False] and
    not with the arguments of the caller. So the outer call returns no
    value; when the resets of the restart go through and the dimensions
    [o] and [g] are known, it ends with AttributeError at
    [z_s_onehot.copy()]. *)
Theorem restart_loses_arguments fuel gg zarg ra (w : @worker F Env Pol) w1 :
  rollout_attempt gg zarg ra w = (Ok Restart, w1) ->
  generate_rollouts (S fuel) gg zarg ra w
    = generate_rollouts fuel GoalFalse SkillFalse false w1 /\
  is_ok (fst (generate_rollouts (S fuel) gg zarg ra w)) = false /\
  (forall w2,
      reset_all_rollouts GoalFalse w1 = (Ok tt, w2) ->
      is_Some (Np.assoc "o" (dims (cfg w2))) ->
      is_Some (Np.assoc "g" (dims (cfg w2))) ->
      generate_rollouts (S (S fuel)) gg zarg ra w = (Raise AttributeError, w2)).
Proof.
  intros H.
  assert (E : forall n, generate_rollouts (S n) gg zarg ra w
                        = generate_rollouts n GoalFalse SkillFalse false w1).
  { intros n. cbn [generate_rollouts]. now rewrite (bind_step _ _ _ _ _ H). }
  split; [apply E|]. split.
  - rewrite E. destruct (restart_raises fuel w1) as (e & w' & ->). reflexivity.
  - intros w2 Hreset [d_o Ho] [d_g Hg]. rewrite E.
    cbn [generate_rollouts]. apply bind_raise.
    unfold rollout_attempt.
    rewrite (bind_step _ _ _ _ _ Hreset).
    assert (Hd : forall k d, Np.assoc k (dims (cfg w2)) = Some d ->
                             dim k w2 = (Ok d, w2)).
    { intros k d Hk. unfold dim, bind, get. now rewrite Hk. }
    rewrite (bind_step get _ w2 w2 w2 eq_refl).
    rewrite (bind_step _ _ _ _ _ (Hd _ _ Ho)), (bind_step _ _ _ _ _ (Hd _ _ Hg)).
    reflexivity.
Qed.

(** A value returned by [generate_rollouts] comes from its first attempt. *)
Lemma generate_rollouts_ok fuel gg zarg ra w fr epb w' :
  generate_rollouts fuel gg zarg ra w = (Ok (fr, epb), w') ->
  exists ep lc,
    rollout_attempt gg zarg ra w = (Ok (Done (fr, ep, lc)), w') /\
    epb = convert_episode_to_batch_major ep.
Proof.
  destruct fuel as [|fuel]; cbn [generate_rollouts]; [discriminate|].
  intros H. run.
  match goal with H : rollout_attempt _ _ _ _ = (Ok ?r, _) |- _ =>
    destruct r as [[[fr' ep] lc]|] end.
  - run. simplify_eq. eauto.
  - destruct (restart_raises fuel x0) as (e & w2 & Er). congruence.
Qed.

(** Two levels of recursion are all [generate_rollouts] ever uses. *)
Lemma generate_rollouts_fuel n gg zarg ra w :
  generate_rollouts (S (S n)) gg zarg ra w = generate_rollouts 2 gg zarg ra w.
Proof.
  cbn [generate_rollouts]. unfold bind at 1 3.
  destruct (rollout_attempt gg zarg ra w) as [[[[[fr ep] lc]|]|e] w1]; try reflexivity.
  destruct (attempt_without_skills_raises GoalFalse false w1) as (e & w2 & E).
  now rewrite !(bind_raise _ _ _ _ _ E).
Qed.

(** *** One timestep, summarised *)

Lemma rollout_step_summary ra t lc w lc' w' :
  rollout_step ra t lc w = (Ok (Done lc'), w') ->
  let B := rollout_batch_size (cfg w) in
  exists out pol' sb1,
    get_actions (policy_args w ra lc) (policy w) = (Ok out, pol') /\
    (cfg w' = cfg w /\ stats w' = stats w /\ g w' = g w /\
     initial_o w' = initial_o w /\ initial_ag w' = initial_ag w /\
     warnings w' = warnings w /\ policy w' = pol') /\
    (obs lc' = obs lc ++ [o lc] /\ zs lc' = zs lc ++ [z lc] /\
     achieved_goals lc' = achieved_goals lc ++ [ag lc] /\
     acts lc' = acts lc ++ [rows_of out] /\ goals lc' = goals lc ++ [g w] /\
     successes lc' = successes lc ++ [success sb1] /\
     rewards lc' = rewards lc ++ [cur_reward sb1] /\
     dones lc' = dones lc ++ [cur_done sb1] /\
     valids lc' = valids lc ++ [cur_valid lc] /\ z lc' = z lc) /\
    (length (o lc') = B /\ length (ag lc') = B /\ length (success sb1) = B /\
     length (cur_reward sb1) = B /\ length (cur_done sb1) = B /\
     length (cur_valid lc') = length (cur_valid lc) /\
     length (returns lc') = length (returns lc)) /\
    (forall n m, Forall (shape2 n m) (info_values lc) ->
                 Forall (shape2 n m) (info_values lc')) /\
    ((forall j, cur_valid lc !! j = Some f0 -> cur_valid lc' !! j = Some f0) /\
     (forall j x, cur_valid lc' !! j = Some x -> x = f0 \/ cur_valid lc !! j = Some x)) /\
    (forall j, (j < B)%nat -> exists v r0 reward,
          cur_valid lc !! j = Some v /\ returns lc !! j = Some r0 /\
          cur_reward sb1 !! j = Some reward /\
          returns lc' !! j = Some (if ftruthy v then fadd r0 reward else r0)).
Proof.
  intros H B. subst B.
  apply rollout_step_done in H
    as (out & pol' & d_o & d_g & lc1 & sb1 & cv1 & qs & Hpol & Hstep & Hinv & ->).
  apply step_envs_done in Hstep
    as ([Hfr _] & Hhist & (Ho & Hag & Hsu & Hcr & Hcd & Hrt) & Hinfo & Hrel);
    [|apply NoDup_seq].
  apply invalidate_ok in Hinv as (_ & Hcvl & Hkeep & Hval).
  unfold frame_of in Hfr. cbn in Hfr, Ho, Hag, Hsu, Hcr, Hcd.
  unfold history in Hhist.
  injection Hfr as Hcfg Hp Hst Hg Hio Hia Hwa.
  injection Hhist as E1 E2 E3 E4 E5 E6 E7 E8 E9 E10 E11 E12 E13 E14.
  unfold Np.full2, Np.full in *.
  rewrite length_replicate in Ho. rewrite length_replicate in Hag.
  rewrite length_replicate in Hsu. rewrite length_replicate in Hcr.
  rewrite length_replicate in Hcd.
  exists out, pol', sb1. cbn.
  rewrite E1, E2, E3, E4, E5, E6, E7, E8, E9, E10, E11, E12, E14 in *.
  rewrite !length_map.
  split; [assumption|].
  split; [repeat split; congruence|].
  split; [repeat split; congruence|].
  split; [repeat split; congruence|].
  split; [assumption|].
  split; [split; assumption|].
  intros j Hj. destruct (Hrel j) as [Hin _].
  destruct Hin as (v & r0 & reward & Hv & Hr0 & Hret & Hc).
  { apply elem_of_seq. lia. }
  exists v, r0, reward. repeat split; try assumption. apply Hc. cbn.
  now rewrite length_replicate.
Qed.

(** *** Shapes *)

Lemma shape2_nil {A} m : shape2 0 m (@nil (list A)).
Proof. split; [reflexivity | constructor]. Qed.

Lemma shape2_snoc {A} n m (a : list (list A)) r :
  shape2 n m a -> length r = m -> shape2 (S n) m (a ++ [r]).
Proof.
  intros [Hn Hm] Hr. split.
  - rewrite length_app. cbn. lia.
  - apply Forall_app. split; [assumption | now repeat constructor].
Qed.

Lemma zip_cons_shape {A} m (r : list A) (cols : list (list A)) :
  length r = length cols -> Forall (fun c => length c = m) cols ->
  shape2 (length cols) (S m) (zip_with cons r cols).
Proof.
  revert cols. induction r as [|x r IH]; intros [|c cols] Hl Hc;
    try discriminate; cbn.
  - split; [reflexivity | constructor].
  - apply Forall_cons in Hc as [Hc Hcs]. injection Hl as Hl.
    destruct (IH cols Hl Hcs) as [Hn Hf]. split; cbn.
    + now rewrite Hn.
    + constructor; [cbn; now rewrite Hc | assumption].
Qed.

Lemma swapaxes01_shape {A} n (rows : list (list A)) :
  Forall (fun r => length r = n) rows ->
  shape2 n (length rows) (Np.swapaxes01 n rows).
Proof.
  induction rows as [|r rows IH]; intros Hrows; cbn.
  - split; [apply length_replicate | now apply Forall_replicate].
  - apply Forall_cons in Hrows as [Hr Hrows].
    destruct (IH Hrows) as [Hn Hf].
    rewrite <- Hn at 1. apply zip_cons_shape; [congruence | assumption].
Qed.

(** The transposition turns [n] timesteps of [m] rows into [m] rows of
    [n] timesteps. *)
Lemma batch_major_shape {A} n m (rows : list (list A)) :
  (0 < n)%nat -> shape2 n m rows -> shape2 m n (batch_major rows).
Proof.
  intros Hpos [Hn Hm]. unfold batch_major.
  destruct rows as [|r rows]; [cbn in Hn; lia|]. cbn [hd].
  pose proof (Forall_inv Hm) as Hr. cbn beta in Hr. rewrite Hr, <- Hn.
  now apply swapaxes01_shape.
Qed.

Lemma shape_inv_step B m ra t n lc w lc1 w1 :
  policy_answers_batch ->
  shape_inv B m n lc w -> rollout_step ra t lc w = (Ok (Done lc1), w1) ->
  shape_inv B m (S n) lc1 w1.
Proof.
  intros Hpol ((HB & Hg & Ho & Hag & Hz & Hcv) & (S1 & S2 & S3 & S4 & S5)
               & (S6 & S7 & S8 & S9) & Hiv) H.
  apply rollout_step_summary in H
    as (out & pol' & sb1 & Hget & (Ec & _ & Eg & _) &
        (E1 & E2 & E3 & E4 & E5 & E6 & E7 & E8 & E9 & Ez) &
        (L1 & L2 & L3 & L4 & L5 & L6 & _) & Hinfo & _ & _).
  apply Hpol in Hget. cbn in Hget.
  rewrite HB in *.
  unfold shape_inv.
  rewrite Ec, Eg, E1, E2, E3, E4, E5, E6, E7, E8, E9, Ez.
  split; [repeat split; congruence|].
  split;
    [repeat (match goal with |- shape2 _ _ _ /\ _ => split end);
     apply shape2_snoc; (assumption || congruence)|].
  split;
    [repeat (match goal with |- shape2 _ _ _ /\ _ => split end);
     apply shape2_snoc; (assumption || congruence)|].
  auto.
Qed.

Lemma Forall_zip_snd {A B C} (P : C -> Prop) (f : A -> B) (l1 : list A) (l2 : list C) :
  Forall P l2 -> Forall (fun kv => P (snd kv)) (zip_with (fun k v => (f k, v)) l1 l2).
Proof.
  intros H. revert l1. induction H as [|x l2 Hx H IH]; intros [|k l1]; cbn;
    constructor; auto.
Qed.

(** The locals an attempt starts from satisfy the shape invariant. *)
Lemma shape_inv_init B m (w : @worker F Env Pol) z0 (im : @frames Img) iv :
  rollout_batch_size (cfg w) = B -> length (g w) = B ->
  length (initial_o w) = B -> length (initial_ag w) = B -> length z0 = B ->
  Forall (shape2 m B) iv ->
  shape_inv B m 0
    {| o := initial_o w; ag := initial_ag w; z := z0;
       obs := []; zs := []; achieved_goals := []; acts := []; goals := [];
       successes := []; rewards := []; dones := []; valids := [];
       imgs := im; info_values := iv; Qs := @nil Qv;
       cur_valid := Np.full B f1; lengths := Np.full B (-1);
       once_successes := Np.full B 0; returns := Np.full B f0 |} w.
Proof.
  intros. unfold shape_inv; cbn. unfold Np.full. rewrite length_replicate.
  repeat split; auto.
Qed.

(** C2. For every rollout that [generate_rollouts] completes, from a
    worker as [__init__] leaves it, with a policy that answers one action
    per environment and skills given for each environment: the lists the
    loop builds hold [T+1] arrays for [o] and [ag] and [T] arrays for
    [z], [u], [g], [myr], [myd], [myv] and every info channel, each array
    with one row per environment; after the batch-major assembly the
    fields have shape [rollout_batch_size, T+1, ...] and
    [rollout_batch_size, T, ...]. *)
Theorem episode_shapes fuel gg zarg ra (w : @worker F Env Pol) fr epb w' :
  well_formed w ->
  policy_answers_batch ->
  (forall rows, zarg = SkillArray rows -> length rows = rollout_batch_size (cfg w)) ->
  generate_rollouts fuel gg zarg ra w = (Ok (fr, epb), w') ->
  let B := rollout_batch_size (cfg w) in
  let n := Z.to_nat (T (cfg w)) in
  exists ep lc,
    rollout_attempt gg zarg ra w = (Ok (Done (fr, ep, lc)), w') /\
    epb = convert_episode_to_batch_major ep /\
    shaped_time_major B n ep /\
    shaped_batch_major B n epb.
Proof.
  intros (HT & Hg & Hio & Hia) Hpol Hz H B n.
  apply generate_rollouts_ok in H as (ep & lc & H & ->).
  exists ep, lc. split; [exact H|]. split; [reflexivity|].
  apply rollout_attempt_done in H
    as (w0 & z0 & iv0 & wl & successful & Hreset & -> & Hiv & Hloop & _ & -> & _).
  apply reset_all_rollouts_ok in Hreset
    as ((Ec & _ & _ & _ & _ & Lg & Lio & Lia) & _).
  rewrite Ec in Hiv, Hloop. fold B n in Hiv, Hloop.
  eapply (rollout_loop_done (shape_inv B n)) in Hloop.
  2: { intros; eapply shape_inv_step; eassumption. }
  2: { apply shape_inv_init; try assumption; try (subst B; congruence).
       now apply Hz. }
  rewrite length_seq in Hloop. cbn [Nat.add] in Hloop.
  destruct Hloop as ((_ & _ & Ho & Hag & _) & (S1 & S2 & S3 & S4 & S5)
                     & (S6 & S7 & S8 & S9) & Hinfo).
  assert (Hn : (0 < n)%nat) by (subst n; lia).
  unfold shaped_time_major, shaped_batch_major, episode_shape. cbn.
  rewrite Ec. fold B. split.
  - split; [split; now apply shape2_snoc|]. split; [auto 10|].
    now apply (Forall_zip_snd (shape2 n B)).
  - split.
    { split; apply batch_major_shape; try lia; now apply shape2_snoc. }
    split.
    { repeat (match goal with |- shape2 _ _ _ /\ _ => split end);
        now apply batch_major_shape. }
    apply Forall_map. cbn.
    apply (Forall_zip_snd (fun v => shape2 B n (batch_major v))).
    eapply Forall_impl; [exact Hinfo|]. intros v Hv. now apply batch_major_shape.
Qed.

(** *** What the loop leaves alone *)

(** The configuration, the statistics and the goal buffer do not change
    during the timesteps, and every recorded goal array is the goal
    buffer. *)
Lemma rollout_loop_frame ra ts lc (w : @worker F Env Pol) lc' w' :
  rollout_loop ra ts lc w = (Ok (Done lc'), w') ->
  goals lc = [] ->
  cfg w' = cfg w /\ stats w' = stats w /\ g w' = g w /\
  Forall (fun x => x = g w) (goals lc') /\ length (goals lc') = length ts.
Proof.
  intros H Hg0.
  apply (rollout_loop_done
           (fun n lc1 w1 => cfg w1 = cfg w /\ stats w1 = stats w /\ g w1 = g w /\
                            Forall (fun x => x = g w) (goals lc1) /\
                            length (goals lc1) = n) ra ts) with (n := 0%nat) in H.
  - exact H.
  - intros t n lc0 w0 lc1 w1 (Hc & Hs & Hg & Hall & Hlen) Hstep.
    apply rollout_step_summary in Hstep
      as (out & pol' & sb1 & _ & (Ec & Es & Eg & _) &
          (_ & _ & _ & _ & E5 & _) & _).
    rewrite Ec, Es, Eg, E5. repeat split; try assumption.
    + apply Forall_app. split; [assumption|]. repeat constructor. congruence.
    + rewrite length_app. cbn. lia.
  - rewrite Hg0. repeat split. constructor.
Qed.

(** *** The validity mask *)

Lemma lookup_snoc_Some {A} (l : list A) x i y :
  (l ++ [x]) !! i = Some y -> l !! i = Some y \/ (i = length l /\ y = x).
Proof.
  intros H. apply lookup_app_Some in H as [H | [Hle H]]; [now left | right].
  destruct (i - length l)%nat as [|k] eqn:Hk; cbn in H; [|discriminate].
  injection H as <-. split; [lia | reflexivity].
Qed.

Lemma valid_inv_step ra t lc (w : @worker F Env Pol) lc1 w1 :
  valid_inv lc -> rollout_step ra t lc w = (Ok (Done lc1), w1) -> valid_inv lc1.
Proof.
  intros (I1 & I2 & I3 & I4) H.
  apply rollout_step_summary in H
    as (out & pol' & sb1 & _ & _ & (_ & _ & _ & _ & _ & _ & _ & _ & E9 & _) &
        _ & _ & (Hkeep & Hval) & _).
  unfold valid_inv. rewrite E9. repeat split.
  - intros i x Hx. destruct (Hval _ _ Hx) as [-> | Hx']; [now left | eauto].
  - intros t0 row i x Hrow Hx.
    apply lookup_snoc_Some in Hrow as [Hrow | [_ ->]]; eauto.
  - intros t0 row i Hrow Hx. apply Hkeep.
    apply lookup_snoc_Some in Hrow as [Hrow | [_ ->]]; eauto.
  - intros t0 t' row row' i Hlt Hrow Hrow' Hx.
    apply lookup_snoc_Some in Hrow as [Hrow | [-> ->]];
      apply lookup_snoc_Some in Hrow' as [Hrow' | [-> ->]]; eauto.
    all: try lia.
    all: try (apply lookup_lt_Some in Hrow'; lia).
Qed.

(** Reading the transposed array: entry [t] of row [i] is entry [i] of
    row [t] of the time-major array. *)
Lemma batch_major_lookup {A} (rows : list (list A)) i col t x :
  batch_major rows !! i = Some col -> col !! t = Some x ->
  exists row, rows !! t = Some row /\ row !! i = Some x.
Proof.
  unfold batch_major. generalize (length (hd [] rows)) as n. intros n.
  revert col t. induction rows as [|r rows IH]; intros col t Hcol Hx; cbn in Hcol.
  - apply lookup_replicate in Hcol as [-> _]. discriminate.
  - apply lookup_zip_with_Some in Hcol as (y & c & -> & Hy & Hc).
    destruct t as [|t]; cbn in Hx.
    + injection Hx as <-. exists r. auto.
    + destruct (IH _ _ Hc Hx) as (row & Hrow & Hi). exists row. auto.
Qed.

(** The mask recorded by an attempt that completes: entries [0.] and
    [1.] only, and a cell that is [0.] stays [0.]. *)
Lemma attempt_mask gg zarg ra (w : @worker F Env Pol) fr ep lc w' :
  rollout_attempt gg zarg ra w = (Ok (Done (fr, ep, lc)), w') ->
  (forall t row i x,
      ep_myv ep !! t = Some row -> row !! i = Some x -> x = f0 \/ x = f1) /\
  (forall t t' row row' i,
      (t < t')%nat -> ep_myv ep !! t = Some row -> ep_myv ep !! t' = Some row' ->
      row !! i = Some f0 -> row' !! i = Some f0).
Proof.
  intros H.
  apply rollout_attempt_done in H
    as (w0 & z0 & iv0 & wl & successful & _ & _ & _ & Hloop & _ & -> & _).
  apply (rollout_loop_done (fun _ lc1 _ => valid_inv lc1)) with (n := 0%nat) in Hloop.
  2: { intros; eapply valid_inv_step; eassumption. }
  2: { unfold valid_inv; cbn. repeat split; try (intros; discriminate).
       intros i x Hx. apply lookup_replicate in Hx as [-> _]. now right. }
  destruct Hloop as (_ & I2 & _ & I4). cbn. split; assumption.
Qed.

(** C3. In a rollout that [generate_rollouts] completes, the validity
    mask [myv[t][i]] recorded at each timestep holds [0.] and [1.] only
    and never goes back up: once it is [0.] for environment [i] at
    timestep [t], it is [0.] for [i] at every later timestep of the
    rollout. [ep] is the episode as the loop built it, which the call
    returns in batch-major form. *)
Theorem validity_mask_monotone fuel gg zarg ra (w : @worker F Env Pol) fr epb w' :
  generate_rollouts fuel gg zarg ra w = (Ok (fr, epb), w') ->
  exists ep lc,
    rollout_attempt gg zarg ra w = (Ok (Done (fr, ep, lc)), w') /\
    epb = convert_episode_to_batch_major ep /\
    (forall t row i x,
        ep_myv ep !! t = Some row -> row !! i = Some x -> x = f0 \/ x = f1) /\
    (forall t t' row row' i,
        (t < t')%nat -> ep_myv ep !! t = Some row -> ep_myv ep !! t' = Some row' ->
        row !! i = Some f0 -> row' !! i = Some f0).
Proof.
  intros H.
  apply generate_rollouts_ok in H as (ep & lc & H & ->).
  exists ep, lc. split; [exact H|]. split; [reflexivity|].
  eapply attempt_mask. exact H.
Qed.

(** The same, read off the batch-major episode that is returned. *)
Lemma returned_mask_monotone fuel gg zarg ra (w : @worker F Env Pol) fr epb w' :
  generate_rollouts fuel gg zarg ra w = (Ok (fr, epb), w') ->
  (forall i col t x,
      ep_myv epb !! i = Some col -> col !! t = Some x -> x = f0 \/ x = f1) /\
  (forall i col t t' x,
      ep_myv epb !! i = Some col -> (t < t')%nat ->
      col !! t = Some f0 -> col !! t' = Some x -> x = f0).
Proof.
  intros H.
  apply generate_rollouts_ok in H as (ep & lc & H & ->).
  apply attempt_mask in H as (I2 & I4). cbn. split.
  - intros i col t x Hcol Hx.
    destruct (batch_major_lookup _ _ _ _ _ Hcol Hx) as (row & Hrow & Hi). eauto.
  - intros i col t t' x Hcol Hlt Ht Ht'.
    destruct (batch_major_lookup _ _ _ _ _ Hcol Ht) as (row & Hrow & Hi).
    destruct (batch_major_lookup _ _ _ _ _ Hcol Ht') as (row' & Hrow' & Hi').
    pose proof (I4 _ _ _ _ _ Hlt Hrow Hrow' Hi). congruence.
Qed.

(** *** Returns *)

Lemma fsum_snoc (l : list F) x : fsum (l ++ [x]) = fadd (fsum l) x.
Proof. unfold fsum. now rewrite fold_left_app. Qed.

Lemma valid_rewards_snoc i (myr myv : list (list F)) r v :
  length myr = length myv ->
  valid_rewards i (myr ++ [r]) (myv ++ [v]) =
  valid_rewards i myr myv ++
    match r !! i, v !! i with
    | Some x, Some m => if ftruthy m then [x] else []
    | _, _ => []
    end.
Proof.
  intros Hlen. unfold valid_rewards.
  rewrite (zip_with_app pair myr [r] myv [v] Hlen). rewrite omap_app. f_equal. cbn.
  destruct (r !! i), (v !! i); try reflexivity. now destruct (ftruthy _).
Qed.

Lemma return_inv_step B ra t lc w lc1 w1 :
  return_inv B lc w -> rollout_step ra t lc w = (Ok (Done lc1), w1) ->
  return_inv B lc1 w1.
Proof.
  intros (HB & Hlen & Hrl & Hsum) H.
  apply rollout_step_summary in H
    as (out & pol' & sb1 & _ & (Ec & _) &
        (_ & _ & _ & _ & _ & _ & E7 & _ & E9 & _) &
        (_ & _ & _ & _ & _ & _ & L7) & _ & _ & Hret).
  unfold return_inv. rewrite Ec, E7, E9, L7, !length_app. cbn.
  split; [assumption|]. split; [lia|]. split; [assumption|].
  intros j Hj. rewrite HB in Hret.
  destruct (Hret j Hj) as (v & r0 & reward & Hv & Hr0 & Hc & ->).
  rewrite (Hsum j Hj) in Hr0. injection Hr0 as <-.
  rewrite valid_rewards_snoc by assumption. rewrite Hc, Hv.
  destruct (ftruthy v).
  - now rewrite fsum_snoc.
  - now rewrite app_nil_r.
Qed.

(** C4. For a rollout that [generate_rollouts] completes, the return
    accumulated for environment [i] is the sum, in the order of the
    timesteps, of the rewards [myr[t][i]] at the timesteps where the
    recorded mask [myv[t][i]] is true, and the mean of these returns over
    the environments is what the return history receives. [ep] is the
    episode as the loop built it, [lc] the local variables at the end. *)
Theorem return_sums_valid_rewards fuel gg zarg ra (w : @worker F Env Pol) fr epb w' :
  generate_rollouts fuel gg zarg ra w = (Ok (fr, epb), w') ->
  exists ep lc,
    rollout_attempt gg zarg ra w = (Ok (Done (fr, ep, lc)), w') /\
    epb = convert_episode_to_batch_major ep /\
    length (returns lc) = rollout_batch_size (cfg w) /\
    (forall i, (i < rollout_batch_size (cfg w))%nat ->
               returns lc !! i =
               Some (fsum (valid_rewards i (ep_myr ep) (ep_myv ep)))) /\
    return_history (stats w') =
      Np.deque_append (history_len (cfg w)) (return_history (stats w))
                      (mean (returns lc)).
Proof.
  intros H.
  apply generate_rollouts_ok in H as (ep & lc & H & ->).
  exists ep, lc. split; [exact H|]. split; [reflexivity|].
  apply rollout_attempt_done in H
    as (w0 & z0 & iv0 & wl & successful & Hreset & _ & _ & Hloop & _ & -> & ->).
  apply reset_all_rollouts_ok in Hreset as ((Ec & _ & Es & _) & _).
  pose proof (rollout_loop_frame _ _ _ _ _ _ Hloop eq_refl) as (Ec' & Es' & _).
  apply (rollout_loop_done
           (fun _ lc1 w1 => return_inv (rollout_batch_size (cfg w)) lc1 w1))
    with (n := 0%nat) in Hloop.
  2: { intros; eapply return_inv_step; eassumption. }
  2: { unfold return_inv; cbn. unfold Np.full. rewrite length_replicate, Ec.
       repeat split. intros j Hj. apply lookup_replicate. auto. }
  destruct Hloop as (_ & _ & Hrl & Hsum). cbn.
  split; [exact Hrl|]. split; [exact Hsum|].
  rewrite Es', Es, Ec. reflexivity.
Qed.

(** *** Goals *)

Lemma map_fixed (f : F -> F) (l : list F) :
  Forall (fun x => f x = x) l -> map f l = l.
Proof. induction 1; cbn; congruence. Qed.

(** C6, as amended. With a [generated_goal] array of the shape of the
    goal buffer, on goal-conditioned environments, the desired goal
    [g[t][i]] recorded for environment [i] at every timestep [t] of a
    completed rollout is row [i] of [generated_goal] converted to
    float32, the type of the goal buffer, whatever goal the environment
    sampled at its reset; it is that row itself when the entries of the
    row are float32 values. *)
Theorem recorded_goal_is_generated_goal fuel rows zarg ra
    (w : @worker F Env Pol) fr epb w' :
  goal_conditioned ->
  Forall2 (fun row old => length row = length old) rows (g w) ->
  length (g w) = rollout_batch_size (cfg w) ->
  generate_rollouts fuel (GoalArray rows) zarg ra w = (Ok (fr, epb), w') ->
  exists ep lc,
    rollout_attempt (GoalArray rows) zarg ra w = (Ok (Done (fr, ep, lc)), w') /\
    epb = convert_episode_to_batch_major ep /\
    length (ep_g ep) = Z.to_nat (T (cfg w)) /\
    forall t G i row,
      ep_g ep !! t = Some G -> rows !! i = Some row ->
      G !! i = Some (map f32 row) /\
      (Forall (fun x => f32 x = x) row -> G !! i = Some row).
Proof.
  intros Hgc Hshape Hlen H.
  apply generate_rollouts_ok in H as (ep & lc & H & ->).
  exists ep, lc. split; [exact H|]. split; [reflexivity|].
  apply rollout_attempt_done in H
    as (w0 & z0 & iv0 & wl & successful & Hreset & _ & _ & Hloop & _ & -> & _).
  apply reset_all_rollouts_ok in Hreset as ((Ec & _ & _ & _ & _ & Lg & _) & Hgoal).
  pose proof (rollout_loop_frame _ _ _ _ _ _ Hloop eq_refl) as (_ & _ & _ & Hall & HL).
  cbn. split; [now rewrite HL, length_seq, Ec|].
  intros t G i row HG Hrow.
  pose proof (Forall_lookup_1 _ _ _ _ Hall HG) as ->.
  destruct (Forall2_lookup_l _ _ _ _ _ Hshape Hrow) as (old & Hold & Hw).
  assert (Hlt : (i < rollout_batch_size (cfg w))%nat).
  { rewrite <- Hlen. eapply lookup_lt_Some. eassumption. }
  rewrite (Hgoal Hgc rows i row old eq_refl Hlt Hrow Hold Hw).
  split; [reflexivity|]. intros Hf. now rewrite (map_fixed _ _ Hf).
Qed.

(** *** Statistics *)

(** C10. A call of [generate_rollouts] that returns appends one scalar to
    each of the success, once-success, return and episode-length
    histories, appends one to the Q history exactly when [compute_Q] is
    set, and adds [rollout_batch_size] to [n_episodes]; the statistics
    have no other field, and the configuration is kept. *)
Theorem statistics_after_rollout fuel gg zarg ra (w : @worker F Env Pol) r w' :
  generate_rollouts fuel gg zarg ra w = (Ok r, w') ->
  cfg w' = cfg w /\
  exists x_success x_once x_return x_length x_Q,
    one_rollout_recorded (cfg w) (stats w) (stats w')
                         x_success x_once x_return x_length x_Q.
Proof.
  destruct r as [fr epb]. intros H.
  apply generate_rollouts_ok in H as (ep & lc & H & ->).
  apply rollout_attempt_done in H
    as (w0 & z0 & iv0 & wl & successful & Hreset & _ & _ & Hloop & _ & _ & ->).
  apply reset_all_rollouts_ok in Hreset as ((Ec & _ & Es & _) & _).
  pose proof (rollout_loop_frame _ _ _ _ _ _ Hloop eq_refl) as (Ec' & Es' & _).
  cbn. split; [congruence|].
  exists (mean successful), (mean_int (once_successes lc)), (mean (returns lc)),
    (mean_int (lengths lc)), (mean_Q (Qs lc)).
  unfold one_rollout_recorded, record_stats. cbn. rewrite Es', Es, Ec.
  repeat split.
Qed.

(** *** Exploration arguments *)


(** *** Logs *)

Lemma prefix_append (p s : string) : String.prefix p (p +:+ s) = true.
Proof.
  induction p as [|a p IH].
  - now destruct s.
  - change (String a p +:+ s) with (String a (p +:+ s)). cbn [String.prefix].
    destruct (Ascii.ascii_dec a a); [exact IH | congruence].
Qed.

Lemma append_assoc (p q r : string) : (p +:+ q) +:+ r = p +:+ (q +:+ r).
Proof.
  induction p as [|a p IH]; [reflexivity|].
  change (String a (p +:+ q) +:+ r = String a (p +:+ (q +:+ r))).
  change (String a ((p +:+ q) +:+ r) = String a (p +:+ (q +:+ r))).
  now rewrite IH.
Qed.

(** A name that starts with ["<prefix>/"] contains a slash. *)
Lemma prefix_slash (p n : string) :
  String.prefix (p +:+ "/") n = true ->
  existsb (Ascii.eqb "/"%char) (list_ascii_of_string n) = true.
Proof.
  revert n. induction p as [|a p IH]; intros [|b n]; try discriminate.
  - change ("" +:+ "/") with "/". cbn [String.prefix list_ascii_of_string existsb].
    destruct (Ascii.ascii_dec "/"%char b) as [<-|]; [reflexivity | discriminate].
  - change (String a p +:+ "/") with (String a (p +:+ "/")).
    cbn [String.prefix list_ascii_of_string existsb].
    destruct (Ascii.ascii_dec a b) as [<-|]; [|discriminate].
    intros H. rewrite (IH _ H). apply orb_true_r.
Qed.

Lemma raw_log_names (w : @worker F Env Pol) :
  map fst (raw_logs w) = log_names (compute_Q (cfg w)).
Proof. unfold raw_logs, log_names. now destruct (compute_Q (cfg w)). Qed.

(** C7, as amended. [logs(prefix)] lists the tracked statistics in a
    fixed order, with their values; every name is prefixed with
    ["<prefix>/"] if and only if the prefix is not empty and does not end
    with a slash; otherwise the names are left as they are. *)
Theorem logs_prefixed_iff (prefix : string) (w : @worker F Env Pol) :
  map snd (logs prefix w) = map snd (raw_logs w) /\
  map fst (logs prefix w) =
    map (fun k => if negb (String.eqb prefix "") && negb (Np.endswith prefix "/")
                  then prefix +:+ "/" +:+ k else k)
        (log_names (compute_Q (cfg w))) /\
  forall name,
    name ∈ map fst (logs prefix w) ->
    (Np.startswith name (prefix +:+ "/") = true <->
     prefix <> "" /\ Np.endswith prefix "/" = false).
Proof.
  rewrite <- raw_log_names. unfold logs.
  destruct (String.eqb_spec prefix "") as [-> | Hne]; cbn [negb andb].
  - split; [reflexivity|]. split; [now rewrite map_id|].
    intros name Hin. split; [|intros [[] _]; reflexivity].
    intros Hp. apply prefix_slash in Hp. rewrite raw_log_names in Hin.
    exfalso. revert Hin Hp. unfold log_names.
    destruct (compute_Q (cfg w)); cbn; intros Hin;
      repeat (apply elem_of_cons in Hin as [-> | Hin]; [discriminate|]);
      inversion Hin.
  - destruct (Np.endswith prefix "/") eqn:Hend; cbn [negb].
    + split; [reflexivity|]. split; [now rewrite map_id|].
      intros name Hin. split; [|intros [_ ?]; discriminate].
      intros Hp. apply prefix_slash in Hp. rewrite raw_log_names in Hin.
      exfalso. revert Hin Hp. unfold log_names.
      destruct (compute_Q (cfg w)); cbn; intros Hin;
        repeat (apply elem_of_cons in Hin as [-> | Hin]; [discriminate|]);
        inversion Hin.
    + split; [now rewrite map_map|]. split; [now rewrite !map_map|].
      intros name Hin. split; [auto|]. intros _.
      rewrite map_map in Hin.
      apply list_elem_of_fmap in Hin as (kv & -> & _). cbn [fst].
      unfold Np.startswith. rewrite <- append_assoc. apply prefix_append.
Qed.

(** *** Construction *)

Lemma make_envs_length {Mk} (make_env : Mk -> res Env * Mk) n mk es mk' :
  make_envs make_env n mk = (Ok es, mk') -> length es = n.
Proof.
  revert mk es mk'. induction n as [|n IH]; intros mk es mk' H; cbn in H.
  - now injection H as <- _.
  - destruct (make_env mk) as [[e|?] mk1]; [|discriminate].
    destruct (make_envs make_env n mk1) as [[es1|?] mk2] eqn:E; [|discriminate].
    injection H as <- _. cbn. f_equal. eauto.
Qed.

(** A worker that [__init__] returns has the horizon it was given, which
    is positive, and buffers with one row per environment. *)
Lemma init_ok {Mk} (make_env : Mk -> res Env * Mk) pol logger c mk
    (w : @worker F Env Pol) mk' :
  init make_env pol logger c mk = (Ok w, mk') ->
  T (cfg w) = T c /\ rollout_batch_size (cfg w) = rollout_batch_size c /\
  well_formed w.
Proof.
  unfold init.
  destruct (make_envs make_env (rollout_batch_size c) mk) as [[es|?] mk1];
    [|discriminate].
  destruct (0 <? T c) eqn:HT; cbn [negb]; [|discriminate].
  destruct (Np.assoc "g" (dims c)) as [d_g|]; [|discriminate].
  destruct (Np.assoc "o" (dims c)) as [d_o|]; [|discriminate].
  destruct (reset_all_rollouts _ _) as [[u|?] w1] eqn:Hreset; [|discriminate].
  intros [= <- <-].
  apply reset_all_rollouts_ok in Hreset as ((Ec & _ & _ & _ & _ & Lg & Lio & Lia) & _).
  cbn in Ec, Lg, Lio, Lia. unfold Np.full2 in *. rewrite length_replicate in *.
  unfold well_formed. cbn. rewrite Ec. cbn.
  apply Z.ltb_lt in HT. repeat split; assumption.
Qed.

(** Without a positive horizon the construction fails. *)
Lemma init_needs_positive_horizon {Mk} (make_env : Mk -> res Env * Mk) (pol : Pol)
    logger (c : @config F) mk :
  T c <= 0 -> is_ok (fst (init make_env pol logger c mk)) = false.
Proof.
  intros HT. unfold init.
  destruct (make_envs make_env (rollout_batch_size c) mk) as [[es|?] mk1];
    [|reflexivity].
  destruct (Z.ltb_spec 0 (T c)); [lia | reflexivity].
Qed.
End Facts.

End RolloutFacts.

(** ** The experiment configuration *)

Module ConfigFacts.
Import Config.

Section Facts.
Context {EnvObj X : Type} {G : Gym EnvObj X}.
Implicit Types (p : @process EnvObj X).

(** *** The environment cache *)





(** *** The horizon *)

(** A computation that leaves the entry [k] of the parameter dict as it
    is, however it ends. *)
Definition keeps (k : string) {A} (c : M (@process EnvObj X) A) : Prop :=
  forall p r p', c p = (r, p') -> kwargs p' !! k = kwargs p !! k.

Lemma keeps_bind k {A B} (c : M (@process EnvObj X) A) (f : A -> M (@process EnvObj X) B) :
  keeps k c -> (forall a, keeps k (f a)) -> keeps k (bind c f).
Proof.
  intros Hc Hf p r p' H. unfold bind in H.
  destruct (c p) as [[a|e] p1] eqn:E.
  - rewrite (Hf a _ _ _ H). eauto.
  - injection H as <- <-. eauto.
Qed.

Lemma keeps_pure k {A} (c : M (@process EnvObj X) A) :
  (forall p, snd (c p) = p) -> keeps k c.
Proof. intros Hc p r p' H. pose proof (Hc p) as E. rewrite H in E. cbn in E. now subst. Qed.

Lemma keeps_kw_get k k' : keeps k (kw_get k').
Proof. apply keeps_pure. intros p. unfold kw_get, bind, get. cbn. now destruct (_ !! _). Qed.

Lemma keeps_kw_set k k' v : k' <> k -> keeps k (kw_set k' v).
Proof.
  intros Hne p r p' H. unfold kw_set, modify in H. injection H as <- <-. cbn.
  now apply lookup_insert_ne.
Qed.

Lemma keeps_kw_del k k' : k' <> k -> keeps k (kw_del k').
Proof.
  intros Hne. unfold kw_del. apply keeps_bind; [apply keeps_kw_get|]. intros _.
  intros p r p' H. unfold modify in H. injection H as <- <-. cbn.
  now apply lookup_delete_ne.
Qed.

Lemma keeps_lib k {A} (f : X -> res A * X) : keeps k (lib f).
Proof.
  intros p r p' H. unfold lib in H. destruct (f (ext p)). now injection H as <- <-.
Qed.

Lemma keeps_move k names acc :
  Forall (fun n => n <> k /\ "_" +:+ n <> k) names ->
  keeps k (move_ddpg_params names acc).
Proof.
  intros Hn. revert acc. induction Hn as [|n names [H1 H2] Hn IH]; intros acc; cbn.
  - now apply keeps_pure.
  - apply keeps_bind; [apply keeps_kw_get|]. intros v.
    apply keeps_bind; [now apply keeps_kw_set|]. intros _.
    apply keeps_bind; [now apply keeps_kw_del|]. intros _. apply IH.
Qed.

(** Once [kwargs['T']] is assigned, the rest of [prepare_params] does not
    touch it. *)
Lemma keeps_T_after (tmp_env : EnvObj) :
  keeps "T"
    (let* _ := lib (reset tmp_env) in
     let* max_u := kw_get "max_u" in
     let* _ := kw_set "max_u" (match max_u with VList l => VArray l | v => v end) in
     let* t := kw_get "T" in
     let* gamma := lift_res (gamma_of t) in
     let* _ := kw_set "gamma" gamma in
     let* p := get in
     let* _ := match kwargs p !! "lr" with
               | Some lr =>
                   let* _ := kw_set "pi_lr" lr in
                   let* _ := kw_set "Q_lr" lr in
                   let* _ := kw_set "sk_lr" lr in
                   kw_del "lr"
               | None => ret tt
               end in
     let* ddpg_params := move_ddpg_params ddpg_names [] in
     let* _ := kw_set "ddpg_params" (VDict ddpg_params) in
     let* p := get in
     ret (kwargs p)).
Proof.
  repeat first
    [ apply keeps_lib
    | apply keeps_kw_get
    | apply keeps_kw_set; discriminate
    | apply keeps_kw_del; discriminate
    | apply keeps_move; unfold ddpg_names; repeat constructor; discriminate
    | apply keeps_pure; intros ?; reflexivity
    | match goal with |- keeps _ (match ?o with _ => _ end) => destruct o end
    | apply keeps_bind; [|intros ?] ].
Qed.

(** What [prepare_params] does with the environment it obtained. Without
    the attribute [_max_episode_steps] the assertion fails at once and
    nothing is assigned; with it, [kwargs['T']] holds its value from then
    on, however the call ends, and in the dict that is returned. *)
Lemma prepare_with_horizon (tmp_env : EnvObj) p :
  match max_episode_steps tmp_env (ext p) with
  | None => prepare_with tmp_env p = (Raise AssertionError, p)
  | Some t =>
      forall r p', prepare_with tmp_env p = (r, p') ->
                   kwargs p' !! "T" = Some t /\
                   forall kw, r = Ok kw -> kw !! "T" = Some t
  end.
Proof.
  unfold prepare_with.
  destruct (max_episode_steps tmp_env (ext p)) as [t|] eqn:Hm.
  - intros r p' H. cbn [bind get] in H. rewrite Hm in H.
    rewrite bool_decide_eq_true_2 in H by eauto.
    cbn [assert bind ret lift_opt] in H.
    unfold bind at 1 in H. cbn [kw_set modify] in H.
    match type of H with ?c ?q = _ =>
      pose proof (keeps_T_after tmp_env q r p' H) as Hk end.
    cbn in Hk. rewrite lookup_insert_eq in Hk.
    split; [assumption|]. intros kw ->.
    match type of H with bind ?c ?f ?q = _ => set (body := bind c f) in * end.
    assert (Hret : forall q r' q', body q = (Ok r', q') -> r' = kwargs q').
    { clear. intros q r' q' H. unfold body in H. run.
      repeat match goal with H : _ = (Ok _, _) |- _ => clear H end. reflexivity. }
    now rewrite (Hret _ _ _ H).
  - cbn [bind get]. rewrite Hm. rewrite bool_decide_eq_false_2; [reflexivity|].
    intros [? ?]; discriminate.
Qed.

Lemma prepare_params_horizon p (env : EnvObj) p1 :
  make_tmp_env p = (Ok env, p1) ->
  match max_episode_steps env (ext p1) with
  | None => prepare_params p = (Raise AssertionError, p1)
  | Some t =>
      forall r p', prepare_params p = (r, p') ->
                   kwargs p' !! "T" = Some t /\
                   forall kw, r = Ok kw -> kw !! "T" = Some t
  end.
Proof.
  intros H. unfold prepare_params. rewrite (bind_step _ _ _ _ _ H).
  apply prepare_with_horizon.
Qed.
End Facts.

End ConfigFacts.

(** ** The horizon *)

Module Horizon.
Import Config ConfigFacts Rollout RolloutFacts.

Section Statement.
Context {EnvObj X : Type} {G : Gym EnvObj X}.
Context {F Env Pol Img Mk : Type} {FO : FloatOps F} {EI : Environment F Env Img}.

(** C8. When the environment that [prepare_params] obtains has no
    attribute [_max_episode_steps], [prepare_params] fails at once with
    an AssertionError, before it assigns anything; when it has one, its
    value is what [kwargs['T']] holds from then on and in the parameters
    returned. [RolloutWorker.__init__] returns a worker only for a
    horizon [T > 0], and raises otherwise. *)
Theorem horizon_required :
  (forall (p : @process EnvObj X) env p1,
      make_tmp_env p = (Ok env, p1) ->
      match max_episode_steps env (ext p1) with
      | None => prepare_params p = (Raise AssertionError, p1)
      | Some t =>
          forall r p', prepare_params p = (r, p') ->
                       kwargs p' !! "T" = Some t /\
                       forall kw, r = Ok kw -> kw !! "T" = Some t
      end) /\
  (forall (make_env : Mk -> res Env * Mk) (pol : Pol) logger (c : @config F) mk,
      (forall w mk', init make_env pol logger c mk = (Ok w, mk') ->
                     T (cfg w) = T c /\ 0 < T c) /\
      (T c <= 0 -> is_ok (fst (init make_env pol logger c mk)) = false)).
Proof.
  split.
  - intros p env p1. apply prepare_params_horizon.
  - intros make_env pol logger c mk. split.
    + intros w mk' H. apply init_ok in H as (HT & _ & Hpos & _).
      split; [assumption | now rewrite <- HT].
    + apply init_needs_positive_horizon.
Qed.
End Statement.

End Horizon.

(** * Scenarios *)

(** ** Rollouts of the counter environment *)

Module Scenarios.
Import Rollout RolloutFacts Float64.

#[local] Existing Instances ops counter_environment zero_policy.

Lemma zero_policy_answers_batch : policy_answers_batch (F := float) (Pol := nat) (Qv := float).
Proof.
  intros a p out p' H. cbn in H. injection H as <- _.
  destruct (a_compute_Q a); cbn; apply length_map.
Qed.

Lemma counter_env_goal_conditioned :
  goal_conditioned (F := float) (Env := counter_env) (Img := unit).
Proof. intros e ob e' H. cbn in H. injection H as <- _. unfold observe. eauto. Qed.

(** A simulator fault at the second timestep of the second environment:
    the attempt ends at the restart, and the call ends with
    AttributeError instead of returning a rollout. The same with a NaN
    observation there, after the warning is logged. *)
Lemma restart_loses_arguments_witness :
  let w := worker0 3 false [env0 2; faulty_env 2] in
  let w' := worker0 3 false [env0 2; nan_env 2] in
  (fst (rollout_attempt (Img := unit) goals2 skills2 false w) = Ok Restart /\
   is_ok (fst (generate_rollouts (Img := unit) 5 goals2 skills2 false w)) = false /\
   fst (generate_rollouts (Img := unit) 5 goals2 skills2 false w)
     = Raise AttributeError) /\
  (fst (rollout_attempt (Img := unit) goals2 skills2 false w') = Ok Restart /\
   is_ok (fst (generate_rollouts (Img := unit) 5 goals2 skills2 false w')) = false /\
   fst (generate_rollouts (Img := unit) 5 goals2 skills2 false w')
     = Raise AttributeError /\
   warnings (snd (generate_rollouts (Img := unit) 5 goals2 skills2 false w'))
     = ["NaN caught during rollout generation. Trying again..."]).
Proof.
  intros w w'. split.
  - assert (Hf : fst (rollout_attempt (Img := unit) goals2 skills2 false w)
                 = Ok Restart) by (vm_compute; reflexivity).
    destruct (restart_loses_arguments 4 _ _ _ _ _ (outcome_of_result _ _ Hf))
      as (_ & Hno & _).
    split; [exact Hf|]. split; [exact Hno|]. vm_compute. reflexivity.
  - assert (Hf : fst (rollout_attempt (Img := unit) goals2 skills2 false w')
                 = Ok Restart) by (vm_compute; reflexivity).
    destruct (restart_loses_arguments 4 _ _ _ _ _ (outcome_of_result _ _ Hf))
      as (_ & Hno & _).
    split; [exact Hf|]. split; [exact Hno|].
    split; vm_compute; reflexivity.
Defined.

(** Two environments, horizon 3: four observations and three of
    everything else, each with two rows. *)
Lemma episode_shapes_witness :
  exists fr epb w',
    generate_rollouts (Img := unit) 2 goals2 skills2 false two_envs = (Ok (fr, epb), w') /\
    exists ep lc,
      rollout_attempt goals2 skills2 false two_envs = (Ok (Done (fr, ep, lc)), w') /\
      epb = convert_episode_to_batch_major ep /\
      shaped_time_major 2 3 ep /\ shaped_batch_major 2 3 epb.
Proof.
  do 3 eexists. split; [vm_compute; reflexivity|].
  eapply (episode_shapes 2 goals2 skills2 false two_envs).
  - repeat split; vm_compute; reflexivity.
  - exact zero_policy_answers_batch.
  - intros rows [= <-]. reflexivity.
  - vm_compute. reflexivity.
Defined.

(** The first environment is done at its second step: its mask is 1, 1, 0. *)
Lemma validity_mask_monotone_witness :
  exists fr epb w',
    generate_rollouts (Img := unit) 2 goals2 skills2 false two_envs = (Ok (fr, epb), w') /\
    ep_myv epb = [[1; 1; 0]; [1; 1; 1]]%float /\
    exists ep lc,
      rollout_attempt goals2 skills2 false two_envs = (Ok (Done (fr, ep, lc)), w') /\
      epb = convert_episode_to_batch_major ep /\
      (forall t row i x,
          ep_myv ep !! t = Some row -> row !! i = Some x -> x = f0 \/ x = f1) /\
      (forall t t' row row' i,
          (t < t')%nat -> ep_myv ep !! t = Some row -> ep_myv ep !! t' = Some row' ->
          row !! i = Some f0 -> row' !! i = Some f0).
Proof.
  do 3 eexists. split; [vm_compute; reflexivity|]. split; [reflexivity|].
  eapply (validity_mask_monotone 2 goals2 skills2 false two_envs).
  vm_compute. reflexivity.
Defined.

Lemma return_sums_valid_rewards_witness :
  exists fr epb w',
    generate_rollouts (Img := unit) 2 goals2 skills2 false two_envs = (Ok (fr, epb), w') /\
    exists ep lc,
      rollout_attempt goals2 skills2 false two_envs = (Ok (Done (fr, ep, lc)), w') /\
      epb = convert_episode_to_batch_major ep /\
      length (returns lc) = 2%nat /\
      (forall i, (i < 2)%nat ->
                 returns lc !! i =
                 Some (fsum (valid_rewards i (ep_myr ep) (ep_myv ep)))) /\
      return_history (stats w') =
        Np.deque_append (Some 100%nat) (return_history (stats two_envs))
                        (mean (returns lc)).
Proof.
  do 3 eexists. split; [vm_compute; reflexivity|].
  eapply (return_sums_valid_rewards 2 goals2 skills2 false two_envs).
  vm_compute. reflexivity.
Defined.

(** The returns of the two environments are 2 and 3: the first one is
    done at its second step and its third reward does not count. *)
Example returns_of_two_envs :
  return_history
    (stats (snd (generate_rollouts (Img := unit) 2 goals2 skills2 false two_envs)))
  = [2.5]%float.
Proof. vm_compute. reflexivity. Qed.

(** The goals 0.5, 0.25, 1 and 2 are float32 values: they are recorded
    as they are. *)
Lemma recorded_goal_is_generated_goal_witness :
  exists fr epb w',
    generate_rollouts (Img := unit) 2 goals2 skills2 false two_envs = (Ok (fr, epb), w') /\
    exists ep lc,
      rollout_attempt goals2 skills2 false two_envs = (Ok (Done (fr, ep, lc)), w') /\
      epb = convert_episode_to_batch_major ep /\
      length (ep_g ep) = 3%nat /\
      forall t G i row,
        ep_g ep !! t = Some G -> [[0.5; 0.25]; [1; 2]]%float !! i = Some row ->
        G !! i = Some (map f32 row) /\
        (Forall (fun x => f32 x = x) row -> G !! i = Some row).
Proof.
  do 3 eexists. split; [vm_compute; reflexivity|].
  eapply (recorded_goal_is_generated_goal 2 _ skills2 false two_envs).
  - exact counter_env_goal_conditioned.
  - repeat constructor.
  - reflexivity.
  - vm_compute. reflexivity.
Defined.

(** C6. A [generated_goal] of binary64 values: 0.1 is not a float32
    value, and the goal recorded for environment 0 at timestep 0 is not
    row 0 of [generated_goal] but its conversion to float32. *)
Lemma recorded_goal_is_rounded :
  exists fr ep lc w' G gt,
    rollout_attempt (Img := unit)
      (GoalArray [[0x1.999999999999ap-4; 0.25]; [1; 2]]%float) skills2 false two_envs
      = (Ok (Done (fr, ep, lc)), w') /\
    generate_rollouts (Img := unit) 2
      (GoalArray [[0x1.999999999999ap-4; 0.25]; [1; 2]]%float) skills2 false two_envs
      = (Ok (fr, convert_episode_to_batch_major ep), w') /\
    ep_g ep !! 0%nat = Some G /\ G !! 0%nat = Some gt /\
    gt = [0x1.99999ap-4; 0.25]%float /\
    gt <> [0x1.999999999999ap-4; 0.25]%float.
Proof.
  do 6 eexists. split; [vm_compute; reflexivity|].
  split; [vm_compute; reflexivity|].
  split; [reflexivity|]. split; [reflexivity|]. split; [reflexivity|].
  intros [=].
Qed.

Lemma statistics_after_rollout_witness :
  exists r w',
    generate_rollouts (Img := unit) 2 goals2 skills2 false two_envs = (Ok r, w') /\
    cfg w' = cfg two_envs /\
    exists x_success x_once x_return x_length x_Q,
      one_rollout_recorded (cfg two_envs) (stats two_envs) (stats w')
                           x_success x_once x_return x_length x_Q.
Proof.
  do 2 eexists. split; [vm_compute; reflexivity|].
  eapply (statistics_after_rollout 2 goals2 skills2 false two_envs).
  vm_compute. reflexivity.
Defined.


Lemma logs_prefixed_iff_witness :
  Np.startswith "worker/num_trajs" ("worker" +:+ "/") = true <->
  "worker" <> "" /\ Np.endswith "worker" "/" = false.
Proof.
  apply (proj2 (proj2 (logs_prefixed_iff "worker" two_envs))).
  vm_compute. apply list_elem_of_here.
Defined.

(** C7. The prefix ["worker/"] is not empty, and the names come without it. *)
Lemma logs_with_trailing_slash :
  "worker/" <> "" /\
  map fst (logs "worker/" two_envs) =
    ["num_trajs"; "success_rate"; "once_success_rate"; "return"; "episode_length";
     "mean_Q"; "episode"] /\
  Forall (fun name => Np.startswith name ("worker/" +:+ "/") = false)
         (map fst (logs "worker/" two_envs)).
Proof.
  split; [discriminate|]. split; [reflexivity|]. vm_compute. repeat constructor.
Qed.

End Scenarios.

(** ** Processes over the registry *)

Module ConfigScenarios.
Import Config ConfigFacts Registry Horizon.

#[local] Existing Instance registry.
#[local] Existing Instances Float64.ops Float64.counter_environment Float64.zero_policy.

(** On the registered environment the horizon is its step limit, 50, and
    [prepare_params] returns; the maze has no step limit and
    [prepare_params] stops at its assertion, with no horizon assigned; a
    worker is made with horizon 3 and not with horizon 0. *)
Lemma horizon_required_witness :
  (kwargs (snd (prepare_params fetch)) !! "T" = Some (VInt 50) /\
   (forall kw, fst (prepare_params fetch) = Ok kw -> kw !! "T" = Some (VInt 50)) /\
   is_ok (fst (prepare_params fetch)) = true) /\
  (prepare_params maze = (Raise AssertionError, snd (make_tmp_env maze)) /\
   kwargs (snd (prepare_params maze)) !! "T" = None) /\
  (exists w, Float64.make_worker 3 [Float64.env0 2] = Ok w /\
             Rollout.T (Rollout.cfg w) = 3 /\ 0 < 3) /\
  Float64.make_worker 0 [Float64.env0 2] = Raise AssertionError.
Proof.
  pose proof (@horizon_required nat heap registry float Float64.counter_env nat unit
                (list Float64.counter_env) Float64.ops Float64.counter_environment)
    as [Hprep Hinit].
  split; [|split; [|split]].
  - assert (Hf : fst (make_tmp_env fetch) = Ok 0%nat) by (vm_compute; reflexivity).
    pose proof (Hprep _ _ _ (outcome_of_result _ _ Hf)) as H.
    assert (Hs : max_episode_steps 0%nat (ext (snd (make_tmp_env fetch)))
                 = Some (VInt 50)) by (vm_compute; reflexivity).
    rewrite Hs in H.
    destruct (H _ _ (surjective_pairing (prepare_params fetch))) as [HT Hkw].
    split; [exact HT|]. split; [exact Hkw|]. vm_compute. reflexivity.
  - assert (Hf : fst (make_tmp_env maze) = Ok 0%nat) by (vm_compute; reflexivity).
    pose proof (Hprep _ _ _ (outcome_of_result _ _ Hf)) as H.
    assert (Hs : max_episode_steps 0%nat (ext (snd (make_tmp_env maze))) = None)
      by (vm_compute; reflexivity).
    rewrite Hs in H. split; [exact H|]. vm_compute. reflexivity.
  - destruct (Hinit Float64.from_list 0%nat [] (Float64.cfg0 3 1 false)
                    [Float64.env0 2]) as [Hok _].
    eassert (Hf : Float64.make_worker 3 [Float64.env0 2] = Ok _)
      by (vm_compute; reflexivity).
    eexists. split; [exact Hf|].
    apply (Hok _ (snd (Rollout.init Float64.from_list 0%nat []
                         (Float64.cfg0 3 1 false) [Float64.env0 2]))).
    exact (outcome_of_result _ _ Hf).
  - vm_compute. reflexivity.
Defined.


End ConfigScenarios.
